(** * c_traits: iterators, allocators and scans behind C trait tables

    A shallow embedding of [iter.c], [scan.c] and the two versions of the
    allocator file, and the properties their description states about them.

    Conventions of the embedding.
    - A [uint32_t] is a [Z] reduced by [wrap32]; a [size_t] is a [Z] reduced
      by [wrap_size] (64 bits).
    - A pointer is an address, a [Z], and [NULL] is [0]; [&p[i]] on a byte
      pointer is [ptr_index p i].
    - A C function that writes through a pointer takes the old content of
      the cell and returns the new one, next to the updated structure.
    - The trait tables ([Iter], [Scan], [Allocator]) are filled by the
      [*_create] functions and written nowhere else, so a call through a
      table of the structure itself is the direct call.  The one table that
      is reached through a pointer to another object, the backing
      allocator of an arena, is the class [Allocator].
    - [HeapAllocator] forwards to [malloc], [free] and [realloc] of the C
      library and has no state of its own; what is proved of an arena is
      proved over every backing allocator. *)

From Stdlib Require Import ZArith List Lia Bool Ascii String.
From stdpp Require Import base gmap strings list.

Open Scope Z_scope.

(** ** iter.c *)

Module Iter.

Definition UINT32_MAX : Z := 4294967295.

(** Arithmetic on [uint32_t]. *)
Definition wrap32 (z : Z) : Z := z mod 2 ^ 32.

(** [struct Range]: the [iter] table apart, [current] and [end]. *)
Record Range := mkRange { current : Z; range_end : Z }.

(** [range_create]: the assertion [0xFFFFFFFF != end] aborts, which is
    [None]. *)
Definition range_create (start end_ : Z) : option Range :=
  if end_ =? UINT32_MAX then None else Some (mkRange start end_).

(** [range_next]: [value] is the content of the caller's cell before the
    call; the result is the returned flag, the content of the cell after
    the call and the range after the call. *)
Definition range_next (range : Range) (value : Z) : bool * Z * Range :=
  let result := current range in
  let range' := mkRange (wrap32 (current range + 1)) (range_end range) in
  (current range' <=? range_end range', result, range').

(** [n] successive calls on the same range and the same cell: the flag
    and the cell content after each call, then the final cell and range. *)
Fixpoint range_calls (n : nat) (range : Range) (value : Z)
  : list (bool * Z) * Z * Range :=
  match n with
  | O => ([], value, range)
  | S n' =>
      let '(more, value', range') := range_next range value in
      let '(outs, value'', range'') := range_calls n' range' value' in
      ((more, value') :: outs, value'', range'')
  end.

(** The consumer loops of [main]: call until the flag is false (at most
    [fuel] calls) and collect the values seen inside the loop body. *)
Fixpoint range_loop (fuel : nat) (range : Range) (value : Z) : list Z :=
  match fuel with
  | O => []
  | S fuel' =>
      let '(more, value', range') := range_next range value in
      if more then value' :: range_loop fuel' range' value' else []
  end.

(** [struct List] and [struct ListIter].  A pointer to a node is the list
    of the [data] fields from that node on; [NULL] is the empty list. *)
Record ListIter := mkListIter { list_current : list Z }.

Definition list_iter_create (root : list Z) : ListIter := mkListIter root.

(** [list_iter_next]: the flag, the node pointer written into the caller's
    cell and the iterator after the call. *)
Definition list_iter_next (list_iter : ListIter) (value : list Z)
  : bool * list Z * ListIter :=
  let result := list_current list_iter in
  match list_current list_iter with
  | [] => (false, result, list_iter)
  | _ :: next => (true, result, mkListIter next)
  end.

Fixpoint list_iter_calls (n : nat) (list_iter : ListIter) (value : list Z)
  : list (bool * list Z) :=
  match n with
  | O => []
  | S n' =>
      let '(more, value', list_iter') := list_iter_next list_iter value in
      (more, value') :: list_iter_calls n' list_iter' value'
  end.

End Iter.

(** ** Pointers and the allocator trait *)

(** Arithmetic on [size_t]. *)
Definition wrap_size (z : Z) : Z := z mod 2 ^ 64.

Definition NULL : Z := 0.

(** [&p[i]] for a pointer to bytes. *)
Definition ptr_index (p i : Z) : Z := wrap_size (p + i).

(** [struct Allocator]: the three operations of an allocator, on the state
    [A] of the object that embeds the table.  [alloc] and [realloc] return
    the pointer and the state after the call. *)
Class Allocator (A : Type) := {
  alloc : A -> Z -> Z * A;
  free : A -> Z -> A;
  realloc : A -> Z -> Z -> Z * A
}.

(** A backing allocator that answers every request with the same pointer
    and keeps the list of the calls it received, to observe which operation
    of its backing allocator an arena calls and with which size. *)
Inductive Call :=
| CallAlloc (size : Z)
| CallFree (ptr : Z)
| CallRealloc (old_ptr new_size : Z).

Record Recorder := mkRecorder { answer : Z; calls : list Call }.

Definition record (c : Call) (r : Recorder) : Recorder :=
  mkRecorder (answer r) (calls r ++ [c]).

#[global] Instance recorder_Allocator : Allocator Recorder := {|
  alloc r size := (answer r, record (CallAlloc size) r);
  free r ptr := record (CallFree ptr) r;
  realloc r old_ptr new_size := (answer r, record (CallRealloc old_ptr new_size) r)
|}.

(** ** The allocator file, counters of type [size_t] *)

Module Alloc.

(** [struct BumpAllocator]. *)
Record BumpAllocator := mkBump {
  bump_memory : Z;
  bump_count : Z;
  bump_length : Z
}.

Definition bump_allocator_create (capacity memory : Z) : BumpAllocator :=
  mkBump memory 0 capacity.

Definition bump_allocator_destroy (b : BumpAllocator) : BumpAllocator :=
  if bump_memory b =? NULL then b
  else mkBump NULL (bump_count b) (bump_length b).

Definition bump_allocator_alloc (b : BumpAllocator) (size : Z)
  : Z * BumpAllocator :=
  if wrap_size (bump_count b + size) <? bump_length b
  then (ptr_index (bump_memory b) (bump_count b),
        mkBump (bump_memory b) (wrap_size (bump_count b + size)) (bump_length b))
  else (NULL, b).

Definition bump_allocator_free (b : BumpAllocator) (ptr : Z) : BumpAllocator := b.

(** [bump_allocator_realloc] calls [alloc] of the allocator's own table,
    which [bump_allocator_create] sets to [bump_allocator_alloc]. *)
Definition bump_allocator_realloc (b : BumpAllocator) (old_ptr size : Z)
  : Z * BumpAllocator :=
  bump_allocator_alloc b size.

Definition bump_allocator_free_all (b : BumpAllocator) : BumpAllocator :=
  mkBump (bump_memory b) 0 (bump_length b).

#[global] Instance bump_Allocator : Allocator BumpAllocator := {|
  alloc := bump_allocator_alloc;
  free := bump_allocator_free;
  realloc := bump_allocator_realloc
|}.

(** [struct ArenaAllocator].  The C structure holds a pointer to the
    backing allocator; the embedding holds the state of that allocator,
    which the arena's operations pass on updated. *)
Record ArenaAllocator (B : Type) := mkArena {
  backing_allocator : B;
  arena_memory : Z;
  arena_count : Z;
  arena_length : Z
}.
Arguments mkArena {B} _ _ _ _.
Arguments backing_allocator {B} _.
Arguments arena_memory {B} _.
Arguments arena_count {B} _.
Arguments arena_length {B} _.

Section Arena.
Context {B : Type} `{Allocator B}.

Definition arena_allocator_create (backing : B) : ArenaAllocator B :=
  mkArena backing NULL 0 0.

Definition arena_allocator_destroy (a : ArenaAllocator B) : ArenaAllocator B :=
  if arena_memory a =? NULL then a
  else mkArena (free (backing_allocator a) (arena_memory a))
               NULL (arena_count a) (arena_length a).

Definition arena_allocator_clear (a : ArenaAllocator B) : ArenaAllocator B :=
  mkArena (backing_allocator a) (arena_memory a) 0 (arena_length a).

Definition arena_allocator_alloc (a : ArenaAllocator B) (size : Z)
  : Z * ArenaAllocator B :=
  let new_count := wrap_size (arena_count a + size) in
  let a1 :=
    if arena_length a <? new_count then
      let new_length := wrap_size (arena_length a * 2) in
      let new_length := if new_length <? new_count then new_count else new_length in
      let '(memory, backing) := alloc (backing_allocator a) new_count in
      mkArena backing memory (arena_count a) new_length
    else a in
  let ptr := ptr_index (arena_memory a1) (arena_count a1) in
  (ptr, mkArena (backing_allocator a1) (arena_memory a1) new_count (arena_length a1)).

Definition arena_allocator_free (a : ArenaAllocator B) (ptr : Z)
  : ArenaAllocator B := a.

Definition arena_allocator_realloc (a : ArenaAllocator B) (old_ptr size : Z)
  : Z * ArenaAllocator B :=
  let new_count := wrap_size (arena_count a + size) in
  let a1 :=
    if arena_length a <? new_count then
      let new_length := wrap_size (arena_length a * 2) in
      let new_length := if new_length <? new_count then new_count else new_length in
      let '(memory, backing) :=
        realloc (backing_allocator a) (arena_memory a) new_length in
      mkArena backing memory (arena_count a) new_length
    else a in
  let ptr := ptr_index (arena_memory a1) (arena_count a1) in
  (ptr, mkArena (backing_allocator a1) (arena_memory a1) new_count (arena_length a1)).

#[global] Instance arena_Allocator : Allocator (ArenaAllocator B) := {|
  alloc := arena_allocator_alloc;
  free := arena_allocator_free;
  realloc := arena_allocator_realloc
|}.
End Arena.

End Alloc.

(** ** The allocator file, counters of type [uint32_t]

    The other version of the file: [count] and [length] are [uint32_t],
    the bump allocator obtains its own buffer, and the arena compares
    [new_count] with [length] the other way round. *)

Module AllocU32.

Definition wrap32 (z : Z) : Z := z mod 2 ^ 32.

Record BumpAllocator := mkBump {
  bump_memory : Z;
  bump_count : Z;
  bump_length : Z
}.

(** [bump_allocator_create]: [malloc_result] is what [malloc (capacity)]
    returned. *)
Definition bump_allocator_create (capacity malloc_result : Z) : BumpAllocator :=
  mkBump malloc_result 0 (wrap32 capacity).

(** The sum [count + size] is computed in [size_t]; [count += size]
    stores it back into a [uint32_t]. *)
Definition bump_allocator_alloc (b : BumpAllocator) (size : Z)
  : Z * BumpAllocator :=
  if wrap_size (bump_count b + size) <? bump_length b
  then (ptr_index (bump_memory b) (bump_count b),
        mkBump (bump_memory b) (wrap32 (wrap_size (bump_count b + size)))
               (bump_length b))
  else (NULL, b).

Definition bump_allocator_free (b : BumpAllocator) (ptr : Z) : BumpAllocator := b.

Definition bump_allocator_realloc (b : BumpAllocator) (old_ptr size : Z)
  : Z * BumpAllocator :=
  bump_allocator_alloc b size.

#[global] Instance bump_Allocator : Allocator BumpAllocator := {|
  alloc := bump_allocator_alloc;
  free := bump_allocator_free;
  realloc := bump_allocator_realloc
|}.

Record ArenaAllocator (B : Type) := mkArena {
  backing_allocator : B;
  arena_memory : Z;
  arena_count : Z;
  arena_length : Z
}.
Arguments mkArena {B} _ _ _ _.
Arguments backing_allocator {B} _.
Arguments arena_memory {B} _.
Arguments arena_count {B} _.
Arguments arena_length {B} _.

Section Arena.
Context {B : Type} `{Allocator B}.

Definition arena_allocator_create (backing : B) : ArenaAllocator B :=
  mkArena backing NULL 0 0.

Definition arena_allocator_alloc (a : ArenaAllocator B) (size : Z)
  : Z * ArenaAllocator B :=
  let new_count := wrap32 (wrap_size (arena_count a + size)) in
  let a1 :=
    if new_count <? arena_length a then
      let new_length := wrap32 (arena_length a * 2) in
      let new_length := if new_length <? new_count then new_count else new_length in
      let '(memory, backing) := alloc (backing_allocator a) new_count in
      mkArena backing memory (arena_count a) new_length
    else a in
  let ptr := ptr_index (arena_memory a1) (arena_count a1) in
  (ptr, mkArena (backing_allocator a1) (arena_memory a1) new_count (arena_length a1)).

Definition arena_allocator_free (a : ArenaAllocator B) (ptr : Z)
  : ArenaAllocator B := a.

Definition arena_allocator_realloc (a : ArenaAllocator B) (old_ptr size : Z)
  : Z * ArenaAllocator B :=
  let new_count := wrap32 (wrap_size (arena_count a + size)) in
  let a1 :=
    if new_count <? arena_length a then
      let new_length := wrap32 (arena_length a * 2) in
      let new_length := if new_length <? new_count then new_count else new_length in
      let '(memory, backing) :=
        realloc (backing_allocator a) (arena_memory a) new_count in
      mkArena backing memory (arena_count a) new_length
    else a in
  let ptr := ptr_index (arena_memory a1) (arena_count a1) in
  (ptr, mkArena (backing_allocator a1) (arena_memory a1) new_count (arena_length a1)).

#[global] Instance arena_Allocator : Allocator (ArenaAllocator B) := {|
  alloc := arena_allocator_alloc;
  free := arena_allocator_free;
  realloc := arena_allocator_realloc
|}.
End Arena.

End AllocU32.

(** ** scan.c *)

Module Scan.

Definition wrap32 (z : Z) : Z := z mod 2 ^ 32.

(** [struct Sum]. *)
Record Sum := mkSum { sum : Z }.

Definition sum_create : Sum := mkSum 0.

Definition sum_return (s : Sum) (result : Z) : Z * Sum := (sum s, s).

Definition sum_append (s : Sum) (addend : Z) : Sum :=
  mkSum (wrap32 (sum s + addend)).

(** [sizeof (char* )] where [size_t] has 64 bits. *)
Definition sizeof_ptr : Z := 8.

(** [struct StringBuilder].  [strings] points to a block of
    [builder_size] bytes, the size [calloc] or [realloc] was asked for;
    [builder_strings] is the content of the block: slot [i] holds the
    string that [strings[i]] points to, and a slot that holds no pointer to
    a string (a null one, or one never stored to) is absent.  A stored
    string is given by its characters before the terminator. *)
Record StringBuilder := mkBuilder {
  builder_strings : gmap Z string;
  builder_size : Z;
  builder_count : Z;
  builder_length : Z
}.

(** [string_builder_create]: [calloc (sizeof (char* ), capacity)] is taken
    to succeed; it gives a block of [capacity] slots, all null. *)
Definition string_builder_create (capacity : Z) : StringBuilder :=
  mkBuilder ∅ (sizeof_ptr * capacity) 0 capacity.

(** [memcpy (&dest[off], src, n)]. *)
Fixpoint memcpy (dest : gmap Z ascii) (off : Z) (src : string) (n : nat)
  : gmap Z ascii :=
  match n, src with
  | S n', String c src' => memcpy (<[off := c]> dest) (off + 1) src' n'
  | _, _ => dest
  end.

Definition strlen (s : string) : Z := Z.of_nat (String.length s).

(** The loop of [string_builder_return], [n] iterations from [index]:
    the final [chr_offset] and buffer, or [None] when a slot below
    [count] holds no string. *)
Fixpoint copy_strings (strings : gmap Z string) (index : Z) (n : nat)
  (chr_offset : Z) (final_string : gmap Z ascii) : option (Z * gmap Z ascii) :=
  match n with
  | O => Some (chr_offset, final_string)
  | S n' =>
      match strings !! index with
      | None => None
      | Some s =>
          let len := wrap32 (strlen s) in
          copy_strings strings (index + 1) n' (wrap32 (chr_offset + len))
            (memcpy final_string chr_offset s (Z.to_nat len))
      end
  end.

Definition NUL : ascii := Ascii.zero.

(** [string_builder_return]: [final_string] is the caller's buffer,
    indexed from the pointer passed as [result]; no bound is checked.
    The result is the builder and the buffer after the call. *)
Definition string_builder_return (builder : StringBuilder)
  (final_string : gmap Z ascii) : option (StringBuilder * gmap Z ascii) :=
  match copy_strings (builder_strings builder) 0
          (Z.to_nat (builder_count builder)) 0 final_string with
  | None => None
  | Some (chr_offset, final_string') =>
      Some (builder, <[chr_offset := NUL]> final_string')
  end.

(** Slot [index] lies inside a block of [size] bytes. *)
Definition slot_in_block (size index : Z) : bool :=
  (0 <=? index) && (sizeof_ptr * (index + 1) <=? size).

(** [realloc (strings, new_size)], taken to succeed: a block of [new_size]
    bytes that keeps the slots lying wholly inside it. *)
Definition realloc_strings (strings : gmap Z string) (new_size : Z)
  : gmap Z string :=
  filter (fun slot => slot_in_block new_size (fst slot) = true) strings.

(** What a call of [string_builder_append] ends in: the builder after the
    call, or a store [strings[count] = string] outside the block, with
    the builder as it is at that store.  C leaves what follows such a
    store undefined, and the embedding follows it no further. *)
Inductive AppendResult :=
| Stored (builder : StringBuilder)
| OutOfBlock (builder : StringBuilder).

(** [string_builder_append].  The call [realloc (builder->strings,
    new_length)] passes [new_length] as the size in bytes. *)
Definition string_builder_append (builder : StringBuilder) (value : string)
  : AppendResult :=
  let builder1 :=
    if builder_count builder =? builder_length builder then
      let new_length := wrap32 (builder_length builder * 2) in
      mkBuilder (realloc_strings (builder_strings builder) new_length) new_length
                (builder_count builder) new_length
    else builder in
  if slot_in_block (builder_size builder1) (builder_count builder1) then
    Stored (mkBuilder (<[builder_count builder1 := value]> (builder_strings builder1))
                      (builder_size builder1)
                      (wrap32 (builder_count builder1 + 1))
                      (builder_length builder1))
  else OutOfBlock builder1.

(** The appends of a caller, in order, up to the first one that stores
    outside the block. *)
Fixpoint append_all (builder : StringBuilder) (values : list string)
  : AppendResult :=
  match values with
  | [] => Stored builder
  | value :: values' =>
      match string_builder_append builder value with
      | Stored builder' => append_all builder' values'
      | OutOfBlock builder' => OutOfBlock builder'
      end
  end.

(** What a reader of the buffer sees: [n] characters from [off], and the
    C string at offset [0] (the characters before the first [NUL], at
    most [fuel] of them). *)
Fixpoint read_chars (buffer : gmap Z ascii) (off : Z) (n : nat) : option string :=
  match n with
  | O => Some EmptyString
  | S n' =>
      match buffer !! off, read_chars buffer (off + 1) n' with
      | Some c, Some s => Some (String c s)
      | _, _ => None
      end
  end.

Fixpoint read_c_string (buffer : gmap Z ascii) (off : Z) (fuel : nat)
  : option string :=
  match fuel with
  | O => None
  | S fuel' =>
      match buffer !! off with
      | None => None
      | Some c =>
          if Ascii.eqb c NUL then Some EmptyString
          else match read_c_string buffer (off + 1) fuel' with
               | Some s => Some (String c s)
               | None => None
               end
      end
  end.

(** The strings in the slots [0 .. count - 1], in slot order. *)
Fixpoint slots (strings : gmap Z string) (index : Z) (n : nat)
  : option (list string) :=
  match n with
  | O => Some []
  | S n' =>
      match strings !! index, slots strings (index + 1) n' with
      | Some s, Some l => Some (s :: l)
      | _, _ => None
      end
  end.

Definition stored_strings (builder : StringBuilder) : option (list string) :=
  slots (builder_strings builder) 0 (Z.to_nat (builder_count builder)).

Definition concat_all (l : list string) : string :=
  fold_right String.append EmptyString l.

End Scan.

(** ** Auxiliary notions of the statements *)

(** A bump allocator over a buffer: [memory] is not null, the buffer ends
    inside the address space and [count] is inside the buffer. *)
Definition bump_ok (memory count length : Z) : Prop :=
  0 < memory /\ 0 <= count <= length /\ memory + length < 2 ^ 64.

(** The length an arena records when it grows. *)
Definition grown_length (length new_count : Z) : Z :=
  Z.max (wrap_size (length * 2)) new_count.

(** The same in the [uint32_t] version. *)
Definition grown_length32 (length new_count : Z) : Z :=
  Z.max (AllocU32.wrap32 (length * 2)) new_count.

#[global] Instance bump_ok_dec memory count length :
  Decision (bump_ok memory count length).
Proof. unfold bump_ok. apply _. Defined.

(** ** Callers *)

(** The loop of [main] over a list iterator: call until the flag is false
    (at most [fuel] calls) and collect [current_node->data] inside the
    loop body. *)
Fixpoint list_iter_loop (fuel : nat) (list_iter : Iter.ListIter) (value : list Z)
  : list Z :=
  match fuel with
  | O => []
  | S fuel' =>
      let '(more, value', list_iter') := Iter.list_iter_next list_iter value in
      if more then hd 0 value' :: list_iter_loop fuel' list_iter' value' else []
  end.

(** A caller of an allocator through its trait table, as [main] is: a
    sequence of [alloc], [free] and [realloc] calls, the pointers returned
    being dropped. *)
Inductive TraitOp :=
| OpAlloc (size : Z)
| OpFree (ptr : Z)
| OpRealloc (old_ptr size : Z).

Definition trait_step {A : Type} `{Allocator A} (a : A) (op : TraitOp) : A :=
  match op with
  | OpAlloc size => snd (alloc a size)
  | OpFree ptr => free a ptr
  | OpRealloc old_ptr size => snd (realloc a old_ptr size)
  end.

Definition trait_run {A : Type} `{Allocator A} (ops : list TraitOp) (a : A) : A :=
  fold_left trait_step ops a.

(** The calls of a backing allocator that release a buffer. *)
Definition is_free_call (c : Call) : bool :=
  match c with CallFree _ => true | _ => false end.

(** The appends of a caller of [Sum], in order. *)
Definition sum_all (addends : list Z) : Scan.Sum :=
  fold_left Scan.sum_append addends Scan.sum_create.

(** The sum of a list of integers. *)
Definition total (addends : list Z) : Z := fold_right Z.add 0 addends.

(** * Properties *)

(** ** The assertions of the three [main] functions *)

(** [alloc.c], bump allocator test: 100 then 200 bytes give [count] 300; a
    request of the whole length fails and leaves [count] at 300; a
    [realloc] of 200 gives [count] 500; [free] changes nothing;
    [free_all] resets [count] and keeps [length]; the next allocation
    starts at the front. *)
Example bump_main_assertions :
  let b0 := Alloc.bump_allocator_create 1024 4096 in
  let '(p1, b1) := alloc b0 100 in
  let '(p2, b2) := alloc b1 200 in
  let '(p3, b3) := alloc b2 1024 in
  let '(p4, b4) := realloc b3 p2 200 in
  let b5 := free b4 p4 in
  let b6 := Alloc.bump_allocator_free_all b5 in
  let '(p7, b7) := alloc b6 200 in
  Alloc.bump_length b0 = 1024 /\
  p1 <> NULL /\ Alloc.bump_count b1 = 100 /\
  p2 <> NULL /\ Alloc.bump_count b2 = 300 /\
  p3 = NULL /\ Alloc.bump_count b3 = 300 /\
  p4 <> NULL /\ Alloc.bump_count b4 = 500 /\
  b5 = b4 /\
  Alloc.bump_count b6 = 0 /\ Alloc.bump_length b6 = 1024 /\
  p7 = Alloc.bump_memory b7 /\ Alloc.bump_count b7 = 200 /\
  Alloc.bump_memory (Alloc.bump_allocator_destroy b7) = NULL.
Proof. vm_compute. repeat split; discriminate. Qed.

(** [alloc.c], arena allocator test, over a backing allocator that answers
    every request: the first allocation sets [memory]; [free] changes
    nothing; a hundred allocations of 100 bytes increase [length];
    [destroy] resets [memory]. *)
Example arena_main_assertions :
  let a0 := Alloc.arena_allocator_create (mkRecorder 4096 []) in
  let '(p1, a1) := alloc a0 100 in
  let '(p2, a2) := realloc a1 p1 10000 in
  let a3 := free a2 p2 in
  let a4 := Nat.iter 100 (fun a => snd (alloc a 100)) a3 in
  Alloc.arena_memory a0 = NULL /\
  p1 <> NULL /\ Alloc.arena_memory a1 <> NULL /\
  p2 <> NULL /\ a3 = a2 /\
  Alloc.arena_length a3 < Alloc.arena_length a4 /\
  Alloc.arena_memory (Alloc.arena_allocator_destroy a4) = NULL.
Proof. vm_compute. repeat split; discriminate. Qed.

(** [scan.c], sum test: the numbers 0 to 10 add up to 55, before and after
    [sum_return]. *)
Example sum_main_assertions :
  let s := fold_left Scan.sum_append [0; 1; 2; 3; 4; 5; 6; 7; 8; 9; 10] Scan.sum_create in
  Scan.sum s = 55 /\ Scan.sum_return s 0 = (55, s).
Proof. split; reflexivity. Qed.


(** ** Range *)

Section RangeFacts.
Import Iter.

Lemma wrap32_small z : 0 <= z <= UINT32_MAX -> wrap32 z = z.
Proof. unfold wrap32, UINT32_MAX. intros Hz. apply Z.mod_small. lia. Qed.

(** The flag of [range_next] is the test of the incremented [current]
    against [end]; the value written is [current] before the increment. *)
Lemma range_next_eq range value :
  range_next range value =
  (wrap32 (current range + 1) <=? range_end range,
   current range,
   mkRange (wrap32 (current range + 1)) (range_end range)).
Proof. reflexivity. Qed.

(** A range standing on its last value writes it and reports no more. *)
Lemma range_next_at_end range value :
  0 <= current range -> current range = range_end range ->
  range_end range < UINT32_MAX ->
  range_next range value =
  (false, range_end range, mkRange (range_end range + 1) (range_end range)).
Proof.
  intros H0 Heq Hmax. rewrite range_next_eq, Heq.
  rewrite wrap32_small by lia.
  replace (range_end range + 1 <=? range_end range) with false; [done|].
  symmetry. apply Z.leb_gt. lia.
Qed.

Lemma range_calls_exhausted n : forall range value,
  0 <= range_end range < current range ->
  current range + Z.of_nat n <= UINT32_MAX ->
  range_calls n range value =
  (map (fun k => (false, current range + Z.of_nat k)) (seq 0 n),
   match n with O => value | S n' => current range + Z.of_nat n' end,
   mkRange (current range + Z.of_nat n) (range_end range)).
Proof.
  induction n as [|n IH]; intros range value Hex Hmax.
  - simpl. rewrite Z.add_0_r. by destruct range.
  - cbn [range_calls]. rewrite range_next_eq.
    rewrite wrap32_small by lia.
    rewrite IH by (simpl; lia). simpl current. simpl range_end.
    replace (current range + 1 <=? range_end range) with false
      by (symmetry; apply Z.leb_gt; lia).
    f_equal; [f_equal|].
    + cbn [seq map]. rewrite Z.add_0_r. f_equal.
      rewrite <- seq_shift, map_map. apply map_ext. intros k. f_equal. lia.
    + destruct n; lia.
    + f_equal. lia.
Qed.

(** What a loop over [range_next] sees, for a range from [start] to
    [start + n]: the [n] values from [start] on, the last of them
    [start + n - 1]. *)
Lemma range_loop_values n : forall fuel start value,
  (n < fuel)%nat -> 0 <= start -> start + Z.of_nat n < UINT32_MAX ->
  range_loop fuel (mkRange start (start + Z.of_nat n)) value =
  map (fun k => start + Z.of_nat k) (seq 0 n).
Proof.
  induction n as [|n IH]; intros fuel start value Hfuel H0 Hmax;
    (destruct fuel as [|fuel]; [lia|]);
    cbn [range_loop]; rewrite range_next_eq; simpl current; simpl range_end;
    rewrite wrap32_small by lia.
  - replace (start + 1 <=? start + Z.of_nat 0) with false
      by (symmetry; apply Z.leb_gt; lia).
    reflexivity.
  - replace (start + 1 <=? start + Z.of_nat (S n)) with true
      by (symmetry; apply Z.leb_le; lia).
    replace (start + Z.of_nat (S n)) with (start + 1 + Z.of_nat n) by lia.
    rewrite IH by lia.
    cbn [seq map]. rewrite Z.add_0_r. f_equal.
    rewrite <- seq_shift, map_map. apply map_ext. intros k. lia.
Qed.
End RangeFacts.

(** C1.  [range_create (0, 10)] followed by twelve calls of [range_next]:
    the calls write 0, 1, ..., 10, 11 in this order; the flag is true for
    the ten calls that write 0 to 9 and false for the call that writes 10
    and for the one after it.  A caller that loops while the flag is true
    sees 0 to 9. *)
Theorem range_0_10_calls :
  Iter.range_create 0 10 = Some (Iter.mkRange 0 10) /\
  fst (fst (Iter.range_calls 12 (Iter.mkRange 0 10) 0)) =
  [(true, 0); (true, 1); (true, 2); (true, 3); (true, 4); (true, 5); (true, 6);
   (true, 7); (true, 8); (true, 9); (false, 10); (false, 11)] /\
  Iter.range_loop 100 (Iter.mkRange 0 10) 0 = [0; 1; 2; 3; 4; 5; 6; 7; 8; 9].
Proof. repeat split. Qed.

(** C2, as stated, fails.  On a range whose [current] is past [end] the
    call writes [current] into the caller's cell (here the cell held 0 and
    holds 11 afterwards), and when [current] is the largest [uint32_t] the
    increment wraps to 0 and the call reports true again. *)
Lemma range_next_exhausted_counterexample :
  (Iter.range_end (Iter.mkRange 11 10) < Iter.current (Iter.mkRange 11 10) /\
   Iter.range_next (Iter.mkRange 11 10) 0 = (false, 11, Iter.mkRange 12 10) /\
   11 <> 0) /\
  (Iter.range_end (Iter.mkRange 4294967295 10)
     < Iter.current (Iter.mkRange 4294967295 10) /\
   Iter.range_next (Iter.mkRange 4294967295 10) 0
     = (true, 4294967295, Iter.mkRange 0 10)).
Proof. repeat split; (reflexivity || lia). Qed.

(** C2, amended.  On a range whose [current] is past [end], each of the
    next [n] calls returns false and writes the value of [current] before
    its increment into the caller's cell, for as long as [current] does not
    pass the largest [uint32_t]; the range ends with [current] advanced by
    [n].  The call made with [current] at the largest [uint32_t] wraps
    [current] to 0 and returns true. *)
Theorem range_next_exhausted :
  (forall (range : Iter.Range) (value : Z) (n : nat),
     0 <= Iter.range_end range < Iter.current range ->
     Iter.current range + Z.of_nat n <= Iter.UINT32_MAX ->
     Iter.range_calls n range value =
     (map (fun k => (false, Iter.current range + Z.of_nat k)) (seq 0 n),
      match n with O => value | S n' => Iter.current range + Z.of_nat n' end,
      Iter.mkRange (Iter.current range + Z.of_nat n) (Iter.range_end range))) /\
  (forall (range : Iter.Range) (value : Z),
     0 <= Iter.range_end range ->
     Iter.current range = Iter.UINT32_MAX ->
     Iter.range_next range value
     = (true, Iter.UINT32_MAX, Iter.mkRange 0 (Iter.range_end range))).
Proof.
  split.
  - intros range value n. apply range_calls_exhausted.
  - intros range value Hend Hmax. rewrite range_next_eq, Hmax.
    change (Iter.wrap32 (Iter.UINT32_MAX + 1)) with 0.
    replace (0 <=? Iter.range_end range) with true; [done|].
    symmetry. apply Z.leb_le. lia.
Qed.

Lemma range_next_exhausted_witness :
  Iter.range_calls 3 (Iter.mkRange 11 10) 0 =
  ([(false, 11); (false, 12); (false, 13)], 13, Iter.mkRange 14 10) /\
  Iter.range_next (Iter.mkRange 4294967295 10) 0
  = (true, 4294967295, Iter.mkRange 0 10).
Proof.
  split.
  - apply (proj1 range_next_exhausted (Iter.mkRange 11 10) 0 3%nat);
      unfold Iter.UINT32_MAX; simpl; lia.
  - apply (proj2 range_next_exhausted (Iter.mkRange 4294967295 10) 0);
      [simpl; lia | reflexivity].
Defined.

(** The list iterator, for comparison: its flag tests the node it has just
    written, so a list of three nodes gives three calls that report a node
    and a fourth that reports none. *)
Lemma list_iter_three_nodes :
  Iter.list_iter_calls 4 (Iter.list_iter_create [1; 2; 3]) [] =
  [(true, [1; 2; 3]); (true, [2; 3]); (true, [3]); (false, [])].
Proof. reflexivity. Qed.

(** ** Bump allocator *)

Lemma wrap_size_small z : 0 <= z < 2 ^ 64 -> wrap_size z = z.
Proof. intros Hz. unfold wrap_size. by apply Z.mod_small. Qed.

Lemma wrap_size_range z : 0 <= wrap_size z < 2 ^ 64.
Proof. unfold wrap_size. apply Z.mod_pos_bound. lia. Qed.

Lemma ptr_index_not_null memory count length :
  bump_ok memory count length -> ptr_index memory count <> NULL.
Proof.
  intros (Hm & Hc & Hl). unfold ptr_index, NULL.
  rewrite wrap_size_small by lia. lia.
Qed.

Lemma bump_alloc_size_t (b : Alloc.BumpAllocator) (size : Z) :
  bump_ok (Alloc.bump_memory b) (Alloc.bump_count b) (Alloc.bump_length b) ->
  let new_count := wrap_size (Alloc.bump_count b + size) in
  let ptr := fst (Alloc.bump_allocator_alloc b size) in
  let b' := snd (Alloc.bump_allocator_alloc b size) in
  (ptr <> NULL <-> new_count < Alloc.bump_length b) /\
  (new_count < Alloc.bump_length b ->
     ptr = Alloc.bump_memory b + Alloc.bump_count b /\
     b' = Alloc.mkBump (Alloc.bump_memory b) new_count (Alloc.bump_length b)) /\
  (~ new_count < Alloc.bump_length b -> ptr = NULL /\ b' = b).
Proof.
  intros Hok new_count. unfold Alloc.bump_allocator_alloc. fold new_count.
  destruct (Z.ltb_spec new_count (Alloc.bump_length b)) as [Hlt|Hge]; simpl.
  - split; [|split]; [| |lia].
    + split; [done|]. intros _. by eapply ptr_index_not_null.
    + intros _. split; [|done]. destruct Hok as (Hm & Hc & Hl).
      unfold ptr_index. apply wrap_size_small. lia.
  - split; [|split]; [|lia|done].
    split; [done|lia].
Qed.

Lemma bump_alloc_u32 (b : AllocU32.BumpAllocator) (size : Z) :
  bump_ok (AllocU32.bump_memory b) (AllocU32.bump_count b) (AllocU32.bump_length b) ->
  AllocU32.bump_length b < 2 ^ 32 ->
  let new_count := wrap_size (AllocU32.bump_count b + size) in
  let ptr := fst (AllocU32.bump_allocator_alloc b size) in
  let b' := snd (AllocU32.bump_allocator_alloc b size) in
  (ptr <> NULL <-> new_count < AllocU32.bump_length b) /\
  (new_count < AllocU32.bump_length b ->
     ptr = AllocU32.bump_memory b + AllocU32.bump_count b /\
     b' = AllocU32.mkBump (AllocU32.bump_memory b) new_count (AllocU32.bump_length b)) /\
  (~ new_count < AllocU32.bump_length b -> ptr = NULL /\ b' = b).
Proof.
  intros Hok H32 new_count. unfold AllocU32.bump_allocator_alloc. fold new_count.
  pose proof (wrap_size_range (AllocU32.bump_count b + size)) as Hr.
  fold new_count in Hr.
  destruct (Z.ltb_spec new_count (AllocU32.bump_length b)) as [Hlt|Hge]; simpl.
  - split; [|split]; [| |lia].
    + split; [done|]. intros _. by eapply ptr_index_not_null.
    + intros _. split.
      * destruct Hok as (Hm & Hc & Hl). unfold ptr_index.
        apply wrap_size_small. lia.
      * f_equal. unfold AllocU32.wrap32. apply Z.mod_small. lia.
  - split; [|split]; [|lia|done].
    split; [done|lia].
Qed.

(** C3.  [bump_allocator_alloc], in both versions of the file, on an
    allocator over a buffer: the result is not null exactly when
    [count + size < length], the sum being the [size_t] sum of the code
    (equal to the sum of the integers whenever that fits in a [size_t]),
    so a request that would fill the buffer exactly fails; on success the
    result is [memory + count] and [count] becomes [count + size], the
    other fields unchanged; on failure the result is [NULL] and the
    allocator is unchanged. *)
Theorem bump_allocator_alloc_spec :
  (forall (b : Alloc.BumpAllocator) (size : Z),
     bump_ok (Alloc.bump_memory b) (Alloc.bump_count b) (Alloc.bump_length b) ->
     0 <= size < 2 ^ 64 ->
     let new_count := wrap_size (Alloc.bump_count b + size) in
     let ptr := fst (Alloc.bump_allocator_alloc b size) in
     let b' := snd (Alloc.bump_allocator_alloc b size) in
     (Alloc.bump_count b + size < 2 ^ 64 -> new_count = Alloc.bump_count b + size) /\
     (ptr <> NULL <-> new_count < Alloc.bump_length b) /\
     (Alloc.bump_count b + size = Alloc.bump_length b -> ptr = NULL) /\
     (new_count < Alloc.bump_length b ->
        ptr = Alloc.bump_memory b + Alloc.bump_count b /\
        b' = Alloc.mkBump (Alloc.bump_memory b) new_count (Alloc.bump_length b)) /\
     (~ new_count < Alloc.bump_length b -> ptr = NULL /\ b' = b)) /\
  (forall (b : AllocU32.BumpAllocator) (size : Z),
     bump_ok (AllocU32.bump_memory b) (AllocU32.bump_count b) (AllocU32.bump_length b) ->
     AllocU32.bump_length b < 2 ^ 32 ->
     0 <= size < 2 ^ 64 ->
     let new_count := wrap_size (AllocU32.bump_count b + size) in
     let ptr := fst (AllocU32.bump_allocator_alloc b size) in
     let b' := snd (AllocU32.bump_allocator_alloc b size) in
     (AllocU32.bump_count b + size < 2 ^ 64 ->
        new_count = AllocU32.bump_count b + size) /\
     (ptr <> NULL <-> new_count < AllocU32.bump_length b) /\
     (AllocU32.bump_count b + size = AllocU32.bump_length b -> ptr = NULL) /\
     (new_count < AllocU32.bump_length b ->
        ptr = AllocU32.bump_memory b + AllocU32.bump_count b /\
        b' = AllocU32.mkBump (AllocU32.bump_memory b) new_count
               (AllocU32.bump_length b)) /\
     (~ new_count < AllocU32.bump_length b -> ptr = NULL /\ b' = b)).
Proof.
  split.
  - intros b size Hok Hsize new_count ptr b'.
    destruct (bump_alloc_size_t b size Hok) as (Hiff & Hyes & Hno).
    fold new_count ptr b' in Hiff, Hyes, Hno.
    assert (Hsmall : Alloc.bump_count b + size < 2 ^ 64 ->
                     new_count = Alloc.bump_count b + size).
    { intros Hlt. apply wrap_size_small. destruct Hok as (_ & Hc & _). lia. }
    repeat split; try tauto.
    intros Heq. apply Hno.
    destruct Hok as (Hm & Hc & Hl). rewrite Hsmall by lia. lia.
  - intros b size Hok H32 Hsize new_count ptr b'.
    destruct (bump_alloc_u32 b size Hok H32) as (Hiff & Hyes & Hno).
    fold new_count ptr b' in Hiff, Hyes, Hno.
    assert (Hsmall : AllocU32.bump_count b + size < 2 ^ 64 ->
                     new_count = AllocU32.bump_count b + size).
    { intros Hlt. apply wrap_size_small. destruct Hok as (_ & Hc & _). lia. }
    repeat split; try tauto.
    intros Heq. apply Hno.
    destruct Hok as (Hm & Hc & Hl). rewrite Hsmall by lia. lia.
Qed.

Lemma bump_allocator_alloc_spec_witness :
  fst (Alloc.bump_allocator_alloc (Alloc.mkBump 4096 300 1024) 724) = NULL /\
  fst (AllocU32.bump_allocator_alloc (AllocU32.mkBump 4096 300 1024) 200) <> NULL.
Proof.
  split.
  - assert (Hok : bump_ok 4096 300 1024) by (unfold bump_ok; lia).
    assert (Hsize : 0 <= 724 < 2 ^ 64) by lia.
    destruct (proj1 bump_allocator_alloc_spec (Alloc.mkBump 4096 300 1024) 724
                Hok Hsize) as (_ & _ & Hfill & _).
    apply Hfill. reflexivity.
  - assert (Hok : bump_ok 4096 300 1024) by (unfold bump_ok; lia).
    assert (H32 : 1024 < 2 ^ 32) by lia.
    assert (Hsize : 0 <= 200 < 2 ^ 64) by lia.
    destruct (proj2 bump_allocator_alloc_spec (AllocU32.mkBump 4096 300 1024) 200
                Hok H32 Hsize) as (_ & Hiff & _).
    apply Hiff. vm_compute. reflexivity.
Defined.

(** C8.  [bump_allocator_realloc] returns what [bump_allocator_alloc]
    returns for the same size, pointer and allocator after the call, for
    every allocator, every old pointer and every size; the old pointer
    plays no part, so two calls that differ in it only agree.  The same
    holds for the calls through the trait. *)
Theorem bump_allocator_realloc_is_alloc :
  (forall (b : Alloc.BumpAllocator) (old_ptr size : Z),
     Alloc.bump_allocator_realloc b old_ptr size = Alloc.bump_allocator_alloc b size /\
     realloc b old_ptr size = alloc b size) /\
  (forall (b : Alloc.BumpAllocator) (old_ptr old_ptr' size : Z),
     Alloc.bump_allocator_realloc b old_ptr size
     = Alloc.bump_allocator_realloc b old_ptr' size) /\
  (forall (b : AllocU32.BumpAllocator) (old_ptr size : Z),
     AllocU32.bump_allocator_realloc b old_ptr size
       = AllocU32.bump_allocator_alloc b size /\
     realloc b old_ptr size = alloc b size).
Proof.
  split; [|split].
  - intros b old_ptr size. split; reflexivity.
  - intros b old_ptr old_ptr' size. reflexivity.
  - intros b old_ptr size. split; reflexivity.
Qed.

(** Releasing a list of pointers, one call of [free] for each. *)
Lemma free_all_pointers_bump (ptrs : list Z) : forall b : Alloc.BumpAllocator,
  fold_left Alloc.bump_allocator_free ptrs b = b.
Proof. induction ptrs as [|ptr ptrs IH]; intros b; simpl; [done|apply IH]. Qed.

Lemma free_all_pointers_arena {B : Type} `{Allocator B} (ptrs : list Z) :
  forall a : Alloc.ArenaAllocator B,
  fold_left Alloc.arena_allocator_free ptrs a = a.
Proof. induction ptrs as [|ptr ptrs IH]; intros a; simpl; [done|apply IH]. Qed.

(** C9.  [bump_allocator_free] and [arena_allocator_free] return the
    allocator they were given, every field of it, the state of the arena's
    backing allocator included, for every allocator and every pointer; so
    does any number of such calls, and an allocation that follows behaves
    as if they had not been made. *)
Theorem allocator_free_unchanged :
  (forall (b : Alloc.BumpAllocator) (ptr : Z),
     Alloc.bump_allocator_free b ptr = b /\ free b ptr = b) /\
  (forall (B : Type) (HB : Allocator B) (a : Alloc.ArenaAllocator B) (ptr : Z),
     Alloc.arena_allocator_free a ptr = a /\ free a ptr = a) /\
  (forall (b : Alloc.BumpAllocator) (ptrs : list Z) (size : Z),
     fold_left Alloc.bump_allocator_free ptrs b = b /\
     alloc (fold_left free ptrs b) size = alloc b size) /\
  (forall (B : Type) (HB : Allocator B) (a : Alloc.ArenaAllocator B)
          (ptrs : list Z) (size : Z),
     fold_left Alloc.arena_allocator_free ptrs a = a /\
     alloc (fold_left free ptrs a) size = alloc a size).
Proof.
  split; [|split; [|split]].
  - intros b ptr. split; reflexivity.
  - intros B HB a ptr. split; reflexivity.
  - intros b ptrs size. split; [apply free_all_pointers_bump|].
    change (fold_left free ptrs b) with (fold_left Alloc.bump_allocator_free ptrs b).
    by rewrite free_all_pointers_bump.
  - intros B HB a ptrs size. split; [apply free_all_pointers_arena|].
    change (fold_left free ptrs a) with (fold_left Alloc.arena_allocator_free ptrs a).
    by rewrite free_all_pointers_arena.
Qed.

(** ** Arena allocator *)

Section ArenaFacts.
Context {B : Type} `{Allocator B}.

Lemma grown_length_eq length new_count :
  (if wrap_size (length * 2) <? new_count then new_count
   else wrap_size (length * 2)) = grown_length length new_count.
Proof. unfold grown_length. destruct (Z.ltb_spec (wrap_size (length * 2)) new_count); lia. Qed.

(** [arena_allocator_alloc], [size_t] version, when it grows. *)
Lemma arena_alloc_grow (a : Alloc.ArenaAllocator B) (size : Z) :
  let new_count := wrap_size (Alloc.arena_count a + size) in
  Alloc.arena_length a < new_count ->
  Alloc.arena_allocator_alloc a size =
  (ptr_index (fst (alloc (Alloc.backing_allocator a) new_count)) (Alloc.arena_count a),
   Alloc.mkArena (snd (alloc (Alloc.backing_allocator a) new_count))
                 (fst (alloc (Alloc.backing_allocator a) new_count))
                 new_count
                 (grown_length (Alloc.arena_length a) new_count)).
Proof.
  intros new_count Hgrow. unfold Alloc.arena_allocator_alloc. fold new_count.
  replace (Alloc.arena_length a <? new_count) with true
    by (symmetry; apply Z.ltb_lt; lia).
  rewrite grown_length_eq.
  destruct (alloc (Alloc.backing_allocator a) new_count) as [memory backing].
  reflexivity.
Qed.

(** [arena_allocator_alloc], [size_t] version, when it does not grow. *)
Lemma arena_alloc_fit (a : Alloc.ArenaAllocator B) (size : Z) :
  let new_count := wrap_size (Alloc.arena_count a + size) in
  new_count <= Alloc.arena_length a ->
  Alloc.arena_allocator_alloc a size =
  (ptr_index (Alloc.arena_memory a) (Alloc.arena_count a),
   Alloc.mkArena (Alloc.backing_allocator a) (Alloc.arena_memory a) new_count
                 (Alloc.arena_length a)).
Proof.
  intros new_count Hfit. unfold Alloc.arena_allocator_alloc. fold new_count.
  replace (Alloc.arena_length a <? new_count) with false
    by (symmetry; apply Z.ltb_ge; lia).
  reflexivity.
Qed.

(** [arena_allocator_realloc], [size_t] version, when it grows. *)
Lemma arena_realloc_grow (a : Alloc.ArenaAllocator B) (old_ptr size : Z) :
  let new_count := wrap_size (Alloc.arena_count a + size) in
  let new_length := grown_length (Alloc.arena_length a) new_count in
  Alloc.arena_length a < new_count ->
  Alloc.arena_allocator_realloc a old_ptr size =
  (ptr_index
     (fst (realloc (Alloc.backing_allocator a) (Alloc.arena_memory a) new_length))
     (Alloc.arena_count a),
   Alloc.mkArena
     (snd (realloc (Alloc.backing_allocator a) (Alloc.arena_memory a) new_length))
     (fst (realloc (Alloc.backing_allocator a) (Alloc.arena_memory a) new_length))
     new_count new_length).
Proof.
  intros new_count new_length Hgrow. unfold Alloc.arena_allocator_realloc.
  fold new_count.
  replace (Alloc.arena_length a <? new_count) with true
    by (symmetry; apply Z.ltb_lt; lia).
  rewrite grown_length_eq. fold new_length.
  destruct (realloc (Alloc.backing_allocator a) (Alloc.arena_memory a) new_length)
    as [memory backing].
  reflexivity.
Qed.

(** The [size_t] version of [arena_allocator_alloc] does what is said of
    it: it grows exactly when [new_count] exceeds [length], to the double
    of [length] or to [new_count], with a buffer from [alloc] of the
    backing allocator; growing increases [length]; the pointer returned
    is [count] bytes into [memory] and [count] becomes [new_count]; the
    first allocation of a new arena sets [memory] to what the backing
    allocator returned. *)
Lemma arena_allocator_alloc_size_t (a : Alloc.ArenaAllocator B) (size : Z) :
  let new_count := wrap_size (Alloc.arena_count a + size) in
  let ptr := fst (Alloc.arena_allocator_alloc a size) in
  let a' := snd (Alloc.arena_allocator_alloc a size) in
  (Alloc.arena_length a < new_count ->
     Alloc.arena_length a' = grown_length (Alloc.arena_length a) new_count /\
     Alloc.arena_length a < Alloc.arena_length a' /\
     Alloc.arena_memory a' = fst (alloc (Alloc.backing_allocator a) new_count) /\
     Alloc.backing_allocator a' = snd (alloc (Alloc.backing_allocator a) new_count)) /\
  (new_count <= Alloc.arena_length a ->
     Alloc.arena_length a' = Alloc.arena_length a /\
     Alloc.arena_memory a' = Alloc.arena_memory a /\
     Alloc.backing_allocator a' = Alloc.backing_allocator a) /\
  ptr = ptr_index (Alloc.arena_memory a') (Alloc.arena_count a) /\
  Alloc.arena_count a' = new_count.
Proof.
  intros new_count ptr a'. subst ptr a'.
  destruct (Z.lt_ge_cases (Alloc.arena_length a) new_count) as [Hgrow|Hfit].
  - rewrite (arena_alloc_grow a size Hgrow). fold new_count. simpl.
    repeat split; try lia. unfold grown_length. lia.
  - rewrite (arena_alloc_fit a size Hfit). fold new_count. simpl.
    repeat split; lia.
Qed.

Lemma arena_first_alloc_size_t (backing : B) :
  Alloc.arena_memory
    (snd (Alloc.arena_allocator_alloc (Alloc.arena_allocator_create backing) 100))
  = fst (alloc backing 100).
Proof.
  unfold Alloc.arena_allocator_alloc, Alloc.arena_allocator_create. simpl.
  change (wrap_size (0 + 100)) with 100. change (0 <? 100) with true.
  change (wrap_size (0 * 2) <? 100) with true. cbv iota.
  destruct (alloc backing 100); reflexivity.
Qed.
End ArenaFacts.

Section ArenaU32Facts.
Context {B : Type} `{Allocator B}.

Lemma grown_length32_eq length new_count :
  (if AllocU32.wrap32 (length * 2) <? new_count then new_count
   else AllocU32.wrap32 (length * 2)) = grown_length32 length new_count.
Proof.
  unfold grown_length32.
  destruct (Z.ltb_spec (AllocU32.wrap32 (length * 2)) new_count); lia.
Qed.

(** In the [uint32_t] version the arena takes the growing branch when
    [new_count] is below [length], and leaves [memory], [length] and the
    backing allocator alone when [new_count] exceeds [length]. *)
Lemma arena_u32_alloc_no_growth (a : AllocU32.ArenaAllocator B) (size : Z) :
  let new_count := AllocU32.wrap32 (wrap_size (AllocU32.arena_count a + size)) in
  AllocU32.arena_length a <= new_count ->
  AllocU32.arena_allocator_alloc a size =
  (ptr_index (AllocU32.arena_memory a) (AllocU32.arena_count a),
   AllocU32.mkArena (AllocU32.backing_allocator a) (AllocU32.arena_memory a)
                    new_count (AllocU32.arena_length a)).
Proof.
  intros new_count Hge. unfold AllocU32.arena_allocator_alloc. fold new_count.
  replace (new_count <? AllocU32.arena_length a) with false
    by (symmetry; apply Z.ltb_ge; lia).
  reflexivity.
Qed.

Lemma arena_u32_realloc_grow (a : AllocU32.ArenaAllocator B) (old_ptr size : Z) :
  let new_count := AllocU32.wrap32 (wrap_size (AllocU32.arena_count a + size)) in
  let new_length := grown_length32 (AllocU32.arena_length a) new_count in
  new_count < AllocU32.arena_length a ->
  AllocU32.arena_allocator_realloc a old_ptr size =
  (ptr_index
     (fst (realloc (AllocU32.backing_allocator a) (AllocU32.arena_memory a) new_count))
     (AllocU32.arena_count a),
   AllocU32.mkArena
     (snd (realloc (AllocU32.backing_allocator a) (AllocU32.arena_memory a) new_count))
     (fst (realloc (AllocU32.backing_allocator a) (AllocU32.arena_memory a) new_count))
     new_count new_length).
Proof.
  intros new_count new_length Hgrow. unfold AllocU32.arena_allocator_realloc.
  fold new_count.
  replace (new_count <? AllocU32.arena_length a) with true
    by (symmetry; apply Z.ltb_lt; lia).
  rewrite grown_length32_eq. fold new_length.
  destruct (realloc (AllocU32.backing_allocator a) (AllocU32.arena_memory a) new_count)
    as [memory backing].
  reflexivity.
Qed.
End ArenaU32Facts.

(** C4.  In the [uint32_t] version of the file the first
    [arena_allocator_alloc] of 100 bytes on a new arena does not grow it,
    although [new_count] = 100 exceeds [length] = 0: the backing allocator
    is not called, [memory] stays [NULL], [length] stays 0, the pointer
    returned is [NULL] and [count] becomes 100.  This holds over every
    backing allocator. *)
Theorem arena_u32_first_alloc :
  forall (B : Type) (HB : Allocator B) (backing : B),
    AllocU32.arena_allocator_alloc (AllocU32.arena_allocator_create backing) 100
    = (NULL, AllocU32.mkArena backing NULL 100 0).
Proof. intros B HB backing. reflexivity. Qed.

(** C10.  When [arena_allocator_alloc] ([size_t] version) grows, the one
    call the backing allocator receives is [alloc] of
    [new_count = count + size] bytes, and the length recorded is the larger
    of the double of the old length (as the code computes it, in [size_t])
    and [new_count]; so whenever that double exceeds [new_count], the
    length recorded exceeds the size that was requested. *)
Theorem arena_growth_request_and_length (a : Alloc.ArenaAllocator Recorder) (size : Z) :
  let new_count := wrap_size (Alloc.arena_count a + size) in
  let a' := snd (Alloc.arena_allocator_alloc a size) in
  Alloc.arena_length a < new_count ->
  calls (Alloc.backing_allocator a')
    = calls (Alloc.backing_allocator a) ++ [CallAlloc new_count] /\
  Alloc.arena_length a' = Z.max (wrap_size (Alloc.arena_length a * 2)) new_count /\
  (new_count < wrap_size (Alloc.arena_length a * 2) ->
     new_count < Alloc.arena_length a') /\
  (0 <= Alloc.arena_length a -> Alloc.arena_length a * 2 < 2 ^ 64 ->
     new_count < 2 * Alloc.arena_length a -> new_count < Alloc.arena_length a').
Proof.
  intros new_count a' Hgrow. subst a'.
  rewrite (arena_alloc_grow a size Hgrow). fold new_count. simpl.
  unfold grown_length. repeat split; try lia.
  intros H0 Hfit Hdouble. rewrite wrap_size_small by lia. lia.
Qed.

Lemma arena_growth_request_and_length_witness :
  let a := Alloc.mkArena (mkRecorder 4096 []) 4096 60 100 in
  calls (Alloc.backing_allocator (snd (Alloc.arena_allocator_alloc a 50)))
    = [CallAlloc 110] /\
  Alloc.arena_length (snd (Alloc.arena_allocator_alloc a 50)) = 200.
Proof.
  assert (Hgrow : 100 < wrap_size (60 + 50)) by (vm_compute; reflexivity).
  destruct (arena_growth_request_and_length
              (Alloc.mkArena (mkRecorder 4096 []) 4096 60 100) 50 Hgrow)
    as (Hcalls & Hlen & _).
  split; [exact Hcalls | exact Hlen].
Defined.

(** C5, as stated, fails.  A new arena over a recording backing allocator:
    [arena_allocator_realloc] of 100 bytes takes the growing branch and the
    backing allocator receives a [realloc] call, with the arena's current
    [memory]; it receives no [alloc] call.  The same in the [uint32_t]
    version, on an arena that takes its growing branch. *)
Lemma arena_realloc_growth_counterexample :
  (let a := Alloc.arena_allocator_create (mkRecorder 4096 []) in
   Alloc.arena_length a < wrap_size (Alloc.arena_count a + 100) /\
   calls (Alloc.backing_allocator (snd (Alloc.arena_allocator_realloc a NULL 100)))
     = [CallRealloc NULL 100]) /\
  (let a := AllocU32.mkArena (mkRecorder 4096 []) 8192 0 1000 in
   AllocU32.wrap32 (wrap_size (AllocU32.arena_count a + 100)) < AllocU32.arena_length a /\
   calls (AllocU32.backing_allocator (snd (AllocU32.arena_allocator_realloc a 8192 100)))
     = [CallRealloc 8192 100]).
Proof. repeat split. Qed.

(** C5, amended.  Over every backing allocator: the growing branch of
    [arena_allocator_alloc] takes the new [memory] from [alloc] of the
    backing allocator, called with [new_count]; the growing branch of
    [arena_allocator_realloc] takes it from [realloc] of the backing
    allocator, called with the arena's current [memory] and with the new
    length ([size_t] version) or with [new_count] ([uint32_t] version). *)
Theorem arena_growth_backing_operation (B : Type) (HB : Allocator B) :
  (forall (a : Alloc.ArenaAllocator B) (size : Z),
     let new_count := wrap_size (Alloc.arena_count a + size) in
     let a' := snd (Alloc.arena_allocator_alloc a size) in
     Alloc.arena_length a < new_count ->
     Alloc.arena_memory a' = fst (alloc (Alloc.backing_allocator a) new_count) /\
     Alloc.backing_allocator a' = snd (alloc (Alloc.backing_allocator a) new_count)) /\
  (forall (a : Alloc.ArenaAllocator B) (old_ptr size : Z),
     let new_count := wrap_size (Alloc.arena_count a + size) in
     let new_length := Z.max (wrap_size (Alloc.arena_length a * 2)) new_count in
     let a' := snd (Alloc.arena_allocator_realloc a old_ptr size) in
     Alloc.arena_length a < new_count ->
     Alloc.arena_memory a'
       = fst (realloc (Alloc.backing_allocator a) (Alloc.arena_memory a) new_length) /\
     Alloc.backing_allocator a'
       = snd (realloc (Alloc.backing_allocator a) (Alloc.arena_memory a) new_length)) /\
  (forall (a : AllocU32.ArenaAllocator B) (old_ptr size : Z),
     let new_count := AllocU32.wrap32 (wrap_size (AllocU32.arena_count a + size)) in
     let a' := snd (AllocU32.arena_allocator_realloc a old_ptr size) in
     new_count < AllocU32.arena_length a ->
     AllocU32.arena_memory a'
       = fst (realloc (AllocU32.backing_allocator a) (AllocU32.arena_memory a) new_count) /\
     AllocU32.backing_allocator a'
       = snd (realloc (AllocU32.backing_allocator a) (AllocU32.arena_memory a) new_count)).
Proof.
  split; [|split].
  - intros a size new_count a' Hgrow. subst a'.
    rewrite (arena_alloc_grow a size Hgrow). split; reflexivity.
  - intros a old_ptr size new_count new_length a' Hgrow. subst a'.
    rewrite (arena_realloc_grow a old_ptr size Hgrow). split; reflexivity.
  - intros a old_ptr size new_count a' Hgrow. subst a'.
    rewrite (arena_u32_realloc_grow a old_ptr size Hgrow). split; reflexivity.
Qed.

Lemma arena_growth_backing_operation_witness :
  let a := Alloc.mkArena (mkRecorder 4096 []) 8192 60 100 in
  Alloc.backing_allocator (snd (Alloc.arena_allocator_alloc a 50))
    = mkRecorder 4096 [CallAlloc 110] /\
  Alloc.backing_allocator (snd (Alloc.arena_allocator_realloc a 8192 50))
    = mkRecorder 4096 [CallRealloc 8192 200] /\
  AllocU32.backing_allocator
    (snd (AllocU32.arena_allocator_realloc
            (AllocU32.mkArena (mkRecorder 4096 []) 8192 60 1000) 8192 50))
    = mkRecorder 4096 [CallRealloc 8192 110].
Proof.
  assert (Hgrow : 100 < wrap_size (60 + 50)) by (vm_compute; reflexivity).
  assert (Hgrow32 : AllocU32.wrap32 (wrap_size (60 + 50)) < 1000)
    by (vm_compute; reflexivity).
  destruct (arena_growth_backing_operation Recorder recorder_Allocator)
    as (Halloc & Hrealloc & Hrealloc32).
  split; [|split].
  - exact (proj2 (Halloc (Alloc.mkArena (mkRecorder 4096 []) 8192 60 100) 50 Hgrow)).
  - exact (proj2 (Hrealloc (Alloc.mkArena (mkRecorder 4096 []) 8192 60 100)
                    8192 50 Hgrow)).
  - exact (proj2 (Hrealloc32 (AllocU32.mkArena (mkRecorder 4096 []) 8192 60 1000)
                    8192 50 Hgrow32)).
Defined.

(** ** String builder *)

Section ScanFacts.
Import Scan.

Lemma string_append_cons c (s1 s2 : string) :
  (String c s1 ++ s2)%string = String c (s1 ++ s2).
Proof. reflexivity. Qed.

Lemma string_length_append (s1 s2 : string) :
  String.length (s1 ++ s2) = (String.length s1 + String.length s2)%nat.
Proof.
  induction s1 as [|c s1 IH]; [done|].
  rewrite string_append_cons. simpl. by rewrite IH.
Qed.

Lemma string_append_assoc (s1 s2 s3 : string) :
  (s1 ++ (s2 ++ s3) = (s1 ++ s2) ++ s3)%string.
Proof.
  induction s1 as [|c s1 IH]; [done|].
  rewrite !string_append_cons. by rewrite IH.
Qed.

Lemma string_append_empty_r (s : string) : (s ++ EmptyString)%string = s.
Proof.
  induction s as [|c s IH]; [done|].
  rewrite string_append_cons. by rewrite IH.
Qed.

Lemma strlen_append (s1 s2 : string) :
  strlen (s1 ++ s2) = strlen s1 + strlen s2.
Proof. unfold strlen. rewrite string_length_append. lia. Qed.

Lemma strlen_nonneg (s : string) : 0 <= strlen s.
Proof. unfold strlen. lia. Qed.

Lemma concat_all_app (l1 l2 : list string) :
  concat_all (l1 ++ l2) = (concat_all l1 ++ concat_all l2)%string.
Proof.
  induction l1 as [|s l1 IH]; simpl; [done|].
  rewrite IH. apply string_append_assoc.
Qed.

Lemma wrap32_id z : 0 <= z < 2 ^ 32 -> wrap32 z = z.
Proof. intros Hz. unfold wrap32. by apply Z.mod_small. Qed.

(** Reading the buffer. *)
Lemma read_chars_ext (b1 b2 : gmap Z ascii) n : forall off,
  (forall i, off <= i < off + Z.of_nat n -> b1 !! i = b2 !! i) ->
  read_chars b1 off n = read_chars b2 off n.
Proof.
  induction n as [|n IH]; intros off Hext; simpl; [done|].
  rewrite (Hext off) by lia.
  rewrite (IH (off + 1)); [done|]. intros i Hi. apply Hext. lia.
Qed.

Lemma read_chars_app (b : gmap Z ascii) n m : forall off s1 s2,
  read_chars b off n = Some s1 ->
  read_chars b (off + Z.of_nat n) m = Some s2 ->
  read_chars b off (n + m) = Some (s1 ++ s2)%string.
Proof.
  induction n as [|n IH]; intros off s1 s2 H1 H2; simpl in *.
  - inversion H1; subst. by rewrite Z.add_0_r in H2.
  - destruct (b !! off) as [c|]; [|done].
    destruct (read_chars b (off + 1) n) as [s|] eqn:Hs; [|done].
    inversion H1; subst.
    rewrite (IH (off + 1) s s2 Hs); [done|].
    rewrite <- H2. f_equal. lia.
Qed.

(** [memcpy] leaves the cells below its destination alone and puts the
    source at the destination. *)
Lemma memcpy_lookup_lt s : forall (dest : gmap Z ascii) off n i,
  i < off -> memcpy dest off s n !! i = dest !! i.
Proof.
  induction s as [|c s IH]; intros dest off n i Hi; destruct n; simpl; try done.
  rewrite IH by lia. apply lookup_insert_ne. lia.
Qed.

Lemma memcpy_read s : forall (dest : gmap Z ascii) off,
  read_chars (memcpy dest off s (String.length s)) off (String.length s) = Some s.
Proof.
  induction s as [|c s IH]; intros dest off; simpl; [done|].
  rewrite memcpy_lookup_lt by lia. rewrite lookup_insert_eq.
  by rewrite IH.
Qed.

(** The slots of the array. *)
Lemma slots_length (strings : gmap Z string) n : forall index l,
  slots strings index n = Some l -> List.length l = n.
Proof.
  induction n as [|n IH]; intros index l Hl; simpl in Hl.
  - by inversion Hl.
  - destruct (strings !! index); [|done].
    destruct (slots strings (index + 1) n) eqn:Hn; [|done].
    inversion Hl; subst. simpl. f_equal. by eapply IH.
Qed.

Lemma slots_insert_above (strings : gmap Z string) k v n : forall index l,
  index + Z.of_nat n <= k ->
  slots strings index n = Some l ->
  slots (<[k := v]> strings) index n = Some l.
Proof.
  induction n as [|n IH]; intros index l Hk Hl; simpl in *; [done|].
  rewrite lookup_insert_ne by lia.
  destruct (strings !! index); [|done].
  destruct (slots strings (index + 1) n) eqn:Hn; [|done].
  rewrite (IH (index + 1) l0); [done|lia|done].
Qed.

Lemma slots_snoc (strings : gmap Z string) v n : forall index l,
  slots strings index n = Some l ->
  strings !! (index + Z.of_nat n) = Some v ->
  slots strings index (S n) = Some (l ++ [v]).
Proof.
  induction n as [|n IH]; intros index l Hl Hv.
  - simpl in *. inversion Hl; subst. rewrite Z.add_0_r in Hv. by rewrite Hv.
  - change (slots strings index (S (S n)))
      with (match strings !! index, slots strings (index + 1) (S n) with
            | Some s, Some l => Some (s :: l)
            | _, _ => None
            end).
    simpl in Hl.
    destruct (strings !! index); [|done].
    destruct (slots strings (index + 1) n) as [l'|] eqn:Hn; [|done].
    inversion Hl; subst.
    rewrite (IH (index + 1) l' Hn); [done|].
    rewrite <- Hv. f_equal. lia.
Qed.

(** The loop of [string_builder_return] over the slots [l], started at
    the end of a prefix [p] already in the buffer: it ends behind
    [p ++ concat_all l], which is then in the buffer. *)
Lemma copy_strings_concat (strings : gmap Z string) n :
  forall index l (final_string : gmap Z ascii) (p : string),
  slots strings index n = Some l ->
  strlen p + strlen (concat_all l) < 2 ^ 32 ->
  read_chars final_string 0 (String.length p) = Some p ->
  exists final_string',
    copy_strings strings index n (strlen p) final_string
      = Some (strlen p + strlen (concat_all l), final_string') /\
    read_chars final_string' 0 (String.length (p ++ concat_all l))
      = Some (p ++ concat_all l)%string.
Proof.
  induction n as [|n IH]; intros index l final_string p Hl Hlen Hp.
  - simpl in Hl. inversion Hl; subst. simpl.
    exists final_string. rewrite string_append_empty_r.
    split; [|done]. do 2 f_equal. unfold strlen; simpl; lia.
  - simpl in Hl. simpl.
    destruct (strings !! index) as [s|]; [|done].
    destruct (slots strings (index + 1) n) as [l'|] eqn:Hn; [|done].
    inversion Hl; subst. simpl in Hlen. rewrite strlen_append in Hlen.
    pose proof (strlen_nonneg p). pose proof (strlen_nonneg s).
    pose proof (strlen_nonneg (concat_all l')).
    rewrite (wrap32_id (strlen s)) by lia.
    rewrite (wrap32_id (strlen p + strlen s)) by lia.
    unfold strlen at 4. rewrite Nat2Z.id.
    rewrite <- strlen_append.
    destruct (IH (index + 1) l'
                (memcpy final_string (strlen p) s (String.length s))
                (p ++ s)%string Hn) as (final_string' & Hcopy & Hread).
    + rewrite strlen_append. lia.
    + rewrite string_length_append.
      apply read_chars_app.
      * rewrite <- Hp. apply read_chars_ext. intros i Hi.
        apply memcpy_lookup_lt. unfold strlen. lia.
      * apply memcpy_read.
    + exists final_string'. rewrite Hcopy. simpl.
      rewrite <- string_append_assoc in Hread.
      split; [|done]. do 2 f_equal.
      rewrite !strlen_append. lia.
Qed.

(** [string_builder_return] on a builder whose slots hold [l]. *)
Lemma string_builder_return_stored builder l (final_string : gmap Z ascii) :
  stored_strings builder = Some l ->
  strlen (concat_all l) < 2 ^ 32 ->
  exists final_string',
    string_builder_return builder final_string = Some (builder, final_string') /\
    read_chars final_string' 0 (S (String.length (concat_all l)))
      = Some (concat_all l ++ String NUL EmptyString)%string.
Proof.
  intros Hl Hlen. unfold stored_strings in Hl.
  destruct (copy_strings_concat _ _ 0 l final_string EmptyString Hl)
    as (final1 & Hcopy & Hread); [done|done|].
  change (strlen EmptyString) with 0 in Hcopy. rewrite Z.add_0_l in Hcopy.
  change (EmptyString ++ concat_all l)%string with (concat_all l) in Hread.
  unfold string_builder_return. rewrite Hcopy.
  eexists. split; [done|].
  rewrite <- Nat.add_1_r. apply read_chars_app.
  - rewrite <- Hread. apply read_chars_ext. intros i Hi.
    apply lookup_insert_ne. unfold strlen. lia.
  - cbn [read_chars]. unfold strlen. by rewrite Z.add_0_l, lookup_insert_eq.
Qed.

(** Where a store lands. *)
Lemma slot_in_block_capacity size count length :
  0 <= count < length -> sizeof_ptr * length <= size ->
  slot_in_block size count = true.
Proof.
  intros Hc Hsize. unfold slot_in_block, sizeof_ptr in *.
  apply andb_true_iff. split; apply Z.leb_le; lia.
Qed.

Lemma slot_in_block_doubled length :
  slot_in_block (wrap32 (length * 2)) length = false.
Proof.
  unfold slot_in_block, sizeof_ptr, wrap32.
  destruct (Z.leb_spec 0 length) as [Hpos|Hneg]; simpl; [|done].
  apply Z.leb_gt.
  pose proof (Z.mod_le (length * 2) (2 ^ 32)). lia.
Qed.

(** An append that finds [count] equal to [length] asks [realloc] for
    twice [length] bytes and then stores into slot [length], which is
    outside a block of that size whatever [length] is. *)
Lemma string_builder_append_grows_out_of_block builder value :
  builder_count builder = builder_length builder ->
  string_builder_append builder value =
  OutOfBlock
    (mkBuilder
       (realloc_strings (builder_strings builder) (wrap32 (builder_length builder * 2)))
       (wrap32 (builder_length builder * 2))
       (builder_count builder)
       (wrap32 (builder_length builder * 2))).
Proof.
  intros Heq. unfold string_builder_append.
  rewrite Heq, Z.eqb_refl. simpl. by rewrite slot_in_block_doubled.
Qed.

(** An append that finds room stores into slot [count]. *)
Lemma string_builder_append_stores builder value :
  builder_count builder <> builder_length builder ->
  slot_in_block (builder_size builder) (builder_count builder) = true ->
  string_builder_append builder value =
  Stored (mkBuilder (<[builder_count builder := value]> (builder_strings builder))
                    (builder_size builder)
                    (wrap32 (builder_count builder + 1))
                    (builder_length builder)).
Proof.
  intros Hne Hin. unfold string_builder_append.
  replace (builder_count builder =? builder_length builder) with false
    by (symmetry; by apply Z.eqb_neq).
  by rewrite Hin.
Qed.

(** The slots after a store into slot [count]. *)
Lemma stored_strings_store builder l value size length :
  stored_strings builder = Some l ->
  0 <= builder_count builder < 2 ^ 32 - 1 ->
  stored_strings
    (mkBuilder (<[builder_count builder := value]> (builder_strings builder))
               size (wrap32 (builder_count builder + 1)) length)
  = Some (l ++ [value]).
Proof.
  intros Hl Hcount. unfold stored_strings in *. simpl.
  rewrite wrap32_id by lia.
  replace (Z.to_nat (builder_count builder + 1))
    with (S (Z.to_nat (builder_count builder))) by lia.
  apply slots_snoc.
  - apply slots_insert_above; [lia|done].
  - replace (0 + Z.of_nat (Z.to_nat (builder_count builder)))
      with (builder_count builder) by lia.
    apply lookup_insert_eq.
Qed.

(** Appends that stay below [length], on a builder whose block has room
    for [length] slots: all of them store, in the order of the calls, and
    leave the block and [length] as they were. *)
Lemma append_all_within_capacity values : forall builder l,
  stored_strings builder = Some l ->
  0 <= builder_count builder ->
  builder_count builder + Z.of_nat (List.length values) <= builder_length builder ->
  sizeof_ptr * builder_length builder <= builder_size builder ->
  builder_length builder < 2 ^ 32 ->
  exists builder',
    append_all builder values = Stored builder' /\
    stored_strings builder' = Some (l ++ values) /\
    builder_count builder' = builder_count builder + Z.of_nat (List.length values) /\
    builder_length builder' = builder_length builder /\
    builder_size builder' = builder_size builder.
Proof.
  induction values as [|v values IH]; intros builder l Hl H0 Hn Hsize H32.
  - exists builder. simpl. rewrite app_nil_r, Z.add_0_r. done.
  - cbn [append_all]. simpl List.length in Hn.
    rewrite string_builder_append_stores;
      [|lia|apply (slot_in_block_capacity _ _ (builder_length builder)); lia].
    edestruct (IH (mkBuilder (<[builder_count builder := v]> (builder_strings builder))
                             (builder_size builder)
                             (wrap32 (builder_count builder + 1))
                             (builder_length builder)) (l ++ [v]))
      as (builder' & Hall & Hstored & Hcount & Hlength & Hsz).
    + apply stored_strings_store; [done|lia].
    + simpl. rewrite wrap32_id by lia. lia.
    + simpl. rewrite wrap32_id by lia. lia.
    + done.
    + done.
    + exists builder'. simpl in Hcount, Hlength, Hsz.
      rewrite wrap32_id in Hcount by lia.
      rewrite <- app_assoc in Hstored. simpl in Hstored.
      repeat split; try done. rewrite Hcount. simpl List.length. lia.
Qed.

(** An append within the capacity, made after a call of
    [string_builder_return], shows in the next call. *)
Lemma string_builder_append_then_return builder l value
  (final_string : gmap Z ascii) :
  stored_strings builder = Some l ->
  0 <= builder_count builder < builder_length builder ->
  sizeof_ptr * builder_length builder <= builder_size builder ->
  builder_length builder < 2 ^ 32 ->
  strlen (concat_all (l ++ [value])) < 2 ^ 32 ->
  exists builder' first second,
    string_builder_return builder final_string = Some (builder, first) /\
    string_builder_append builder value = Stored builder' /\
    string_builder_return builder' first = Some (builder', second) /\
    read_chars second 0 (S (String.length (concat_all (l ++ [value]))))
      = Some (concat_all (l ++ [value]) ++ String NUL EmptyString)%string.
Proof.
  intros Hl Hcount Hsize H32 Hlen.
  assert (Hlen' : strlen (concat_all l) < 2 ^ 32).
  { rewrite concat_all_app, strlen_append in Hlen.
    pose proof (strlen_nonneg (concat_all [value])). lia. }
  destruct (string_builder_return_stored builder l final_string Hl Hlen')
    as (first & Hfirst & _).
  destruct (string_builder_return_stored
              (mkBuilder (<[builder_count builder := value]> (builder_strings builder))
                         (builder_size builder)
                         (wrap32 (builder_count builder + 1))
                         (builder_length builder))
              (l ++ [value]) first) as (second & Hsecond & Hread);
    [apply stored_strings_store; [done|lia] | done |].
  exists (mkBuilder (<[builder_count builder := value]> (builder_strings builder))
                    (builder_size builder)
                    (wrap32 (builder_count builder + 1))
                    (builder_length builder)), first, second.
  repeat split; try done.
  apply string_builder_append_stores;
    [lia|apply (slot_in_block_capacity _ _ (builder_length builder)); lia].
Qed.
End ScanFacts.

(** C6.  A builder created with capacity 0 has [count] 0, [length] 0 and
    a block of 0 bytes; its first append finds [count] equal to [length],
    doubles the length to 0, asks [realloc] for 0 bytes and stores into
    slot 0, outside the block: the call does not end with [count] within
    [length]. *)
Theorem string_builder_capacity_0_append :
  Scan.string_builder_create 0 = Scan.mkBuilder ∅ 0 0 0 /\
  Scan.string_builder_append (Scan.string_builder_create 0) "a"
  = Scan.OutOfBlock (Scan.mkBuilder ∅ 0 0 0) /\
  Scan.slot_in_block 0 0 = false.
Proof. repeat split. Qed.

(** C7.  The string builder test of [main]: capacity 2 and the appends
    "building ", "a ", "string ", "incrementally.".  The first two appends
    store into slots 0 and 1 of the block of 16 bytes.  The third finds
    [count] equal to [length], sets [length] to 4 and asks [realloc] for 4
    bytes, a block that holds no whole slot, and then stores into slot 2,
    outside that block; so do the sequences of four and of five appends. *)
Theorem string_builder_main_example :
  let two := Scan.mkBuilder (<[1 := "a "%string]> (<[0 := "building "%string]> ∅))
                            16 2 2 in
  let grown := Scan.mkBuilder ∅ 4 2 4 in
  Scan.append_all (Scan.string_builder_create 2) ["building "; "a "]%string
    = Scan.Stored two /\
  Scan.string_builder_append two "string " = Scan.OutOfBlock grown /\
  Scan.slot_in_block (Scan.builder_size grown) (Scan.builder_count grown) = false /\
  Scan.append_all (Scan.string_builder_create 2)
    ["building "; "a "; "string "; "incrementally."]%string
    = Scan.OutOfBlock grown /\
  Scan.append_all (Scan.string_builder_create 2)
    ["building "; "a "; "string "; "incrementally."; "more"]%string
    = Scan.OutOfBlock grown.
Proof. vm_compute. repeat split. Qed.

(** * Further properties of the code *)

(** ** iter.c *)

Section IterMore.
Import Iter.

Lemma list_iter_calls_exhausted k : forall value,
  list_iter_calls k (mkListIter []) value = replicate k (false, []).
Proof. induction k as [|k IH]; intros value; simpl; [done|]. by rewrite IH. Qed.

Lemma list_iter_calls_nodes l : forall k value,
  list_iter_calls (List.length l + k) (mkListIter l) value =
  map (fun i => (true, drop i l)) (seq 0 (List.length l))
  ++ replicate k (false, []).
Proof.
  induction l as [|x l IH]; intros k value.
  - apply list_iter_calls_exhausted.
  - cbn [List.length Nat.add list_iter_calls list_iter_next list_current].
    rewrite IH. cbn [seq map app]. f_equal.
    rewrite <- seq_shift, map_map. reflexivity.
Qed.

Lemma list_iter_loop_nodes l : forall fuel value,
  (List.length l < fuel)%nat ->
  list_iter_loop fuel (mkListIter l) value = l.
Proof.
  induction l as [|x l IH]; intros fuel value Hfuel;
    (destruct fuel as [|fuel]; [simpl in Hfuel; lia|]).
  - reflexivity.
  - cbn [list_iter_loop list_iter_next list_current hd].
    rewrite IH; [done|]. simpl in Hfuel. lia.
Qed.

Lemma wrap32_range z : 0 <= wrap32 z <= UINT32_MAX.
Proof.
  unfold wrap32, UINT32_MAX.
  pose proof (Z.mod_pos_bound z (2 ^ 32)). lia.
Qed.

Lemma wrap32_succ c k : wrap32 (wrap32 (c + 1) + Z.of_nat k) = wrap32 (c + Z.of_nat (S k)).
Proof.
  unfold wrap32. rewrite Zplus_mod_idemp_l. f_equal. lia.
Qed.

Lemma range_calls_writes n : forall range value,
  0 <= current range <= UINT32_MAX ->
  map snd (fst (fst (range_calls n range value)))
    = map (fun k => wrap32 (current range + Z.of_nat k)) (seq 0 n) /\
  snd (range_calls n range value)
    = mkRange (wrap32 (current range + Z.of_nat n)) (range_end range).
Proof.
  induction n as [|n IH]; intros range value Hc.
  - simpl. rewrite Z.add_0_r, wrap32_small by done. by destruct range.
  - cbn [range_calls]. rewrite range_next_eq.
    destruct (IH (mkRange (wrap32 (current range + 1)) (range_end range))
                (current range) (wrap32_range _)) as [Hw Hr].
    destruct (range_calls n _ _) as [[outs value'] range'].
    simpl in Hw, Hr |- *. split.
    + rewrite Z.add_0_r, wrap32_small by done. f_equal.
      rewrite Hw, <- seq_shift, map_map. apply map_ext.
      intros k. apply wrap32_succ.
    + rewrite Hr. f_equal. apply wrap32_succ.
Qed.

Lemma range_calls_endless n : forall range value,
  range_end range = UINT32_MAX ->
  Forall (fun out => fst out = true) (fst (fst (range_calls n range value))).
Proof.
  induction n as [|n IH]; intros range value Hend.
  - constructor.
  - cbn [range_calls]. rewrite range_next_eq.
    pose proof (IH (mkRange (wrap32 (current range + 1)) (range_end range))
                  (current range) Hend) as Hall.
    destruct (range_calls n _ _) as [[outs value'] range'].
    simpl in Hall |- *. constructor; [|done].
    simpl. apply Z.leb_le. rewrite Hend. apply wrap32_range.
Qed.
End IterMore.

(** X1.  A list iterator created on a list of nodes reports, call after
    call, each node in list order with the flag true, then the null pointer
    with the flag false on every later call; a loop that runs while the
    flag is true reads the [data] of every node, in order, once. *)
Theorem list_iter_visits_nodes_in_order :
  (forall (nodes : list Z) (k : nat) (value : list Z),
     Iter.list_iter_calls (List.length nodes + k) (Iter.list_iter_create nodes) value
     = map (fun i => (true, drop i nodes)) (seq 0 (List.length nodes))
       ++ replicate k (false, [])) /\
  (forall (nodes : list Z) (fuel : nat) (value : list Z),
     (List.length nodes < fuel)%nat ->
     list_iter_loop fuel (Iter.list_iter_create nodes) value = nodes).
Proof.
  split.
  - intros nodes k value. apply list_iter_calls_nodes.
  - intros nodes fuel value. apply list_iter_loop_nodes.
Qed.

Lemma list_iter_visits_nodes_in_order_witness :
  list_iter_loop 4 (Iter.list_iter_create [1; 2; 3]) [] = [1; 2; 3].
Proof.
  apply (proj2 list_iter_visits_nodes_in_order [1; 2; 3] 4%nat []).
  simpl. lia.
Defined.

(** X2.  Whatever [end] is, the [k]-th call of [range_next] on a range
    writes [current + k] reduced to a [uint32_t] into the caller's cell,
    and after [n] calls [current] is [current + n] reduced likewise:
    the values written do not depend on the flags returned. *)
Theorem range_next_writes_consecutive (n : nat) (range : Iter.Range) (value : Z) :
  0 <= Iter.current range <= Iter.UINT32_MAX ->
  map snd (fst (fst (Iter.range_calls n range value)))
    = map (fun k => Iter.wrap32 (Iter.current range + Z.of_nat k)) (seq 0 n) /\
  snd (Iter.range_calls n range value)
    = Iter.mkRange (Iter.wrap32 (Iter.current range + Z.of_nat n))
                   (Iter.range_end range).
Proof. apply range_calls_writes. Qed.

Lemma range_next_writes_consecutive_witness :
  map snd (fst (fst (Iter.range_calls 3 (Iter.mkRange 4294967294 5) 0)))
    = [4294967294; 4294967295; 0] /\
  snd (Iter.range_calls 3 (Iter.mkRange 4294967294 5) 0) = Iter.mkRange 1 5.
Proof.
  apply (range_next_writes_consecutive 3 (Iter.mkRange 4294967294 5) 0).
  unfold Iter.UINT32_MAX. simpl. lia.
Defined.

(** X3.  [range_create (start, end)] with [start <= end] below the largest
    [uint32_t] succeeds, and a loop that runs while [range_next] returns
    true sees the [end - start] values [start], ..., [end - 1]: none when
    [start = end], and never [end] itself. *)
Theorem range_loop_half_open (start end_ : Z) (fuel : nat) (value : Z) :
  0 <= start <= end_ -> end_ < Iter.UINT32_MAX ->
  (Z.to_nat (end_ - start) < fuel)%nat ->
  exists range,
    Iter.range_create start end_ = Some range /\
    Iter.range_loop fuel range value
    = map (fun k => start + Z.of_nat k) (seq 0 (Z.to_nat (end_ - start))) /\
    ~ In end_ (Iter.range_loop fuel range value).
Proof.
  intros Hstart Hend Hfuel. exists (Iter.mkRange start end_).
  assert (Hcreate : Iter.range_create start end_ = Some (Iter.mkRange start end_)).
  { unfold Iter.range_create.
    destruct (Z.eqb_spec end_ Iter.UINT32_MAX); [lia|done]. }
  assert (Hloop : Iter.range_loop fuel (Iter.mkRange start end_) value
                  = map (fun k => start + Z.of_nat k)
                        (seq 0 (Z.to_nat (end_ - start)))).
  { replace end_ with (start + Z.of_nat (Z.to_nat (end_ - start))) at 1 by lia.
    apply range_loop_values; [done|lia|lia]. }
  split; [done|]. split; [done|].
  rewrite Hloop. intros Hin. apply in_map_iff in Hin as (k & Hk & Hseq).
  apply in_seq in Hseq. lia.
Qed.

Lemma range_loop_half_open_witness :
  exists range,
    Iter.range_create 3 6 = Some range /\
    Iter.range_loop 10 range 0 = [3; 4; 5] /\
    ~ In 6 (Iter.range_loop 10 range 0).
Proof.
  apply (range_loop_half_open 3 6 10 0);
    unfold Iter.UINT32_MAX; simpl; lia.
Defined.

(** X4.  [range_create] refuses exactly the end [0xFFFFFFFF]; a range with
    that end would never finish, since every call of [range_next] on it
    returns true. *)
Theorem range_end_max_never_finishes :
  (forall start : Z, Iter.range_create start Iter.UINT32_MAX = None) /\
  (forall start end_ : Z,
     end_ <> Iter.UINT32_MAX ->
     Iter.range_create start end_ = Some (Iter.mkRange start end_)) /\
  (forall (n : nat) (range : Iter.Range) (value : Z),
     Iter.range_end range = Iter.UINT32_MAX ->
     Forall (fun out => fst out = true)
            (fst (fst (Iter.range_calls n range value)))).
Proof.
  split; [|split].
  - intros start. reflexivity.
  - intros start end_ Hend. unfold Iter.range_create.
    destruct (Z.eqb_spec end_ Iter.UINT32_MAX); [done|reflexivity].
  - intros n range value. apply range_calls_endless.
Qed.

Lemma range_end_max_never_finishes_witness :
  Iter.range_create 0 10 = Some (Iter.mkRange 0 10) /\
  Forall (fun out => fst out = true)
         (fst (fst (Iter.range_calls 5 (Iter.mkRange 4294967293 4294967295) 0))).
Proof.
  destruct range_end_max_never_finishes as (_ & Hsome & Hall).
  split.
  - apply (Hsome 0 10). unfold Iter.UINT32_MAX. lia.
  - apply (Hall 5%nat (Iter.mkRange 4294967293 4294967295) 0). reflexivity.
Defined.

(** ** The allocator file *)

Section BumpMore.
Import Alloc.

Lemma bump_alloc_fields (b : BumpAllocator) (size : Z) :
  bump_memory (snd (bump_allocator_alloc b size)) = bump_memory b /\
  bump_length (snd (bump_allocator_alloc b size)) = bump_length b.
Proof.
  unfold bump_allocator_alloc.
  destruct (wrap_size (bump_count b + size) <? bump_length b); done.
Qed.

Lemma bump_alloc_count (b : BumpAllocator) (size : Z) :
  0 <= bump_count b <= bump_length b ->
  0 <= bump_count (snd (bump_allocator_alloc b size)) <= bump_length b.
Proof.
  intros Hc. unfold bump_allocator_alloc.
  pose proof (wrap_size_range (bump_count b + size)).
  destruct (Z.ltb_spec (wrap_size (bump_count b + size)) (bump_length b));
    simpl; lia.
Qed.

Lemma bump_step_bounds (b : BumpAllocator) (op : TraitOp) :
  0 <= bump_count b <= bump_length b ->
  bump_memory (trait_step b op) = bump_memory b /\
  bump_length (trait_step b op) = bump_length b /\
  0 <= bump_count (trait_step b op) <= bump_length b.
Proof.
  intros Hc. destruct op as [size|ptr|old_ptr size]; simpl.
  - destruct (bump_alloc_fields b size). by pose proof (bump_alloc_count b size Hc).
  - done.
  - unfold bump_allocator_realloc.
    destruct (bump_alloc_fields b size). by pose proof (bump_alloc_count b size Hc).
Qed.

Lemma bump_run_bounds ops : forall b : BumpAllocator,
  0 <= bump_count b <= bump_length b ->
  bump_memory (trait_run ops b) = bump_memory b /\
  bump_length (trait_run ops b) = bump_length b /\
  0 <= bump_count (trait_run ops b) <= bump_length b.
Proof.
  induction ops as [|op ops IH]; intros b Hc; [done|].
  change (trait_run (op :: ops) b) with (trait_run ops (trait_step b op)).
  destruct (bump_step_bounds b op Hc) as (Hm & Hl & Hc').
  destruct (IH (trait_step b op)) as (Hm' & Hl' & Hc''); [by rewrite Hl|].
  rewrite Hm', Hl', Hm, Hl in *. done.
Qed.
End BumpMore.

(** X5.  Whatever sequence of [alloc], [free] and [realloc] calls a caller
    makes on a bump allocator whose [count] is within [length], with
    whatever sizes, [memory] and [length] stay as they were and [count]
    stays between 0 and [length]; [bump_allocator_free_all] puts [count]
    back to 0; and an allocation that succeeds leaves [count] strictly
    below [length], so the last byte of the buffer is never handed out. *)
Theorem bump_allocator_keeps_bounds :
  (forall (ops : list TraitOp) (b : Alloc.BumpAllocator),
     0 <= Alloc.bump_count b <= Alloc.bump_length b ->
     Alloc.bump_memory (trait_run ops b) = Alloc.bump_memory b /\
     Alloc.bump_length (trait_run ops b) = Alloc.bump_length b /\
     0 <= Alloc.bump_count (trait_run ops b) <= Alloc.bump_length b) /\
  (forall b : Alloc.BumpAllocator,
     Alloc.bump_allocator_free_all b
     = Alloc.mkBump (Alloc.bump_memory b) 0 (Alloc.bump_length b)) /\
  (forall (b : Alloc.BumpAllocator) (size : Z),
     fst (Alloc.bump_allocator_alloc b size) <> NULL ->
     Alloc.bump_count (snd (Alloc.bump_allocator_alloc b size)) < Alloc.bump_length b).
Proof.
  split; [|split].
  - intros ops b. apply bump_run_bounds.
  - reflexivity.
  - intros b size. unfold Alloc.bump_allocator_alloc.
    destruct (Z.ltb_spec (wrap_size (Alloc.bump_count b + size)) (Alloc.bump_length b));
      simpl; [done|]. intros Hnull. by destruct Hnull.
Qed.

Lemma bump_allocator_keeps_bounds_witness :
  let b := trait_run [OpAlloc 100; OpAlloc 2000; OpRealloc 4096 200; OpFree 4196]
             (Alloc.bump_allocator_create 1024 4096) in
  Alloc.bump_memory b = 4096 /\ Alloc.bump_length b = 1024 /\
  0 <= Alloc.bump_count b <= 1024.
Proof.
  apply (proj1 bump_allocator_keeps_bounds
           [OpAlloc 100; OpAlloc 2000; OpRealloc 4096 200; OpFree 4196]
           (Alloc.bump_allocator_create 1024 4096)).
  simpl. lia.
Defined.

(** X6.  Two allocations in a row that both succeed on a bump allocator
    over a buffer, with sizes whose sum with [count] fits a [size_t]: the
    first block starts at [memory + count], the second starts where the
    first ends, and the second ends before the end of the buffer; the two
    blocks lie inside the buffer and do not overlap. *)
Theorem bump_allocations_disjoint (b : Alloc.BumpAllocator) (size1 size2 : Z) :
  bump_ok (Alloc.bump_memory b) (Alloc.bump_count b) (Alloc.bump_length b) ->
  0 <= size1 -> 0 <= size2 ->
  Alloc.bump_count b + size1 + size2 < 2 ^ 64 ->
  let ptr1 := fst (Alloc.bump_allocator_alloc b size1) in
  let b1 := snd (Alloc.bump_allocator_alloc b size1) in
  let ptr2 := fst (Alloc.bump_allocator_alloc b1 size2) in
  ptr1 <> NULL -> ptr2 <> NULL ->
  ptr1 = Alloc.bump_memory b + Alloc.bump_count b /\
  ptr2 = ptr1 + size1 /\
  Alloc.bump_memory b <= ptr1 /\
  ptr2 + size2 < Alloc.bump_memory b + Alloc.bump_length b.
Proof.
  intros Hok Hs1 Hs2 Hfit ptr1 b1 ptr2 Hp1 Hp2.
  pose proof Hok as (Hm & Hc & Hl).
  destruct (bump_alloc_size_t b size1 Hok) as (Hiff1 & Hyes1 & _).
  fold ptr1 b1 in Hiff1, Hyes1.
  rewrite (wrap_size_small (Alloc.bump_count b + size1)) in Hiff1, Hyes1 by lia.
  destruct (Hyes1 (proj1 Hiff1 Hp1)) as [Hptr1 Hb1].
  assert (Hok1 : bump_ok (Alloc.bump_memory b1) (Alloc.bump_count b1)
                         (Alloc.bump_length b1)).
  { rewrite Hb1. simpl. unfold bump_ok. apply Hiff1 in Hp1. lia. }
  destruct (bump_alloc_size_t b1 size2 Hok1) as (Hiff2 & Hyes2 & _).
  fold ptr2 in Hiff2, Hyes2.
  rewrite Hb1 in Hiff2, Hyes2. simpl in Hiff2, Hyes2.
  rewrite (wrap_size_small (Alloc.bump_count b + size1 + size2)) in Hiff2, Hyes2
    by lia.
  destruct (Hyes2 (proj1 Hiff2 Hp2)) as [Hptr2 _].
  apply Hiff2 in Hp2. lia.
Qed.

Lemma bump_allocations_disjoint_witness :
  let b := Alloc.bump_allocator_create 1024 4096 in
  fst (Alloc.bump_allocator_alloc b 100) = 4096 + 0 /\
  fst (Alloc.bump_allocator_alloc (snd (Alloc.bump_allocator_alloc b 100)) 200)
    = fst (Alloc.bump_allocator_alloc b 100) + 100 /\
  4096 <= fst (Alloc.bump_allocator_alloc b 100) /\
  fst (Alloc.bump_allocator_alloc (snd (Alloc.bump_allocator_alloc b 100)) 200) + 200
    < 4096 + 1024.
Proof.
  apply (bump_allocations_disjoint (Alloc.bump_allocator_create 1024 4096) 100 200).
  - unfold bump_ok. simpl. lia.
  - lia.
  - lia.
  - simpl. lia.
  - vm_compute. discriminate.
  - vm_compute. discriminate.
Defined.

(** X7.  After [bump_allocator_free_all] the whole buffer is available
    again: an allocation of fewer than [length] bytes returns the start of
    the buffer and sets [count] to its size, whatever [count] was before;
    one of [length] bytes or more fails and leaves [count] at 0. *)
Theorem bump_free_all_then_alloc (b : Alloc.BumpAllocator) (size : Z) :
  0 <= Alloc.bump_memory b < 2 ^ 64 -> 0 <= size < 2 ^ 64 ->
  (size < Alloc.bump_length b ->
     Alloc.bump_allocator_alloc (Alloc.bump_allocator_free_all b) size
     = (Alloc.bump_memory b,
        Alloc.mkBump (Alloc.bump_memory b) size (Alloc.bump_length b))) /\
  (Alloc.bump_length b <= size ->
     Alloc.bump_allocator_alloc (Alloc.bump_allocator_free_all b) size
     = (NULL, Alloc.mkBump (Alloc.bump_memory b) 0 (Alloc.bump_length b))).
Proof.
  intros Hm Hsize.
  unfold Alloc.bump_allocator_alloc, Alloc.bump_allocator_free_all. simpl.
  rewrite Z.add_0_l, (wrap_size_small size) by lia.
  split; intros Hcmp.
  - replace (size <? Alloc.bump_length b) with true
      by (symmetry; apply Z.ltb_lt; lia).
    unfold ptr_index. rewrite Z.add_0_r, wrap_size_small by lia. done.
  - replace (size <? Alloc.bump_length b) with false
      by (symmetry; apply Z.ltb_ge; lia).
    done.
Qed.

Lemma bump_free_all_then_alloc_witness :
  Alloc.bump_allocator_alloc
    (Alloc.bump_allocator_free_all (Alloc.mkBump 4096 500 1024)) 200
  = (4096, Alloc.mkBump 4096 200 1024) /\
  Alloc.bump_allocator_alloc
    (Alloc.bump_allocator_free_all (Alloc.mkBump 4096 500 1024)) 1024
  = (NULL, Alloc.mkBump 4096 0 1024).
Proof.
  assert (Hm : 0 <= 4096 < 2 ^ 64) by lia.
  assert (H1 : 0 <= 200 < 2 ^ 64) by lia.
  assert (H2 : 0 <= 1024 < 2 ^ 64) by lia.
  split.
  - apply (proj1 (bump_free_all_then_alloc (Alloc.mkBump 4096 500 1024) 200 Hm H1)).
    simpl. lia.
  - apply (proj2 (bump_free_all_then_alloc (Alloc.mkBump 4096 500 1024) 1024 Hm H2)).
    simpl. lia.
Defined.

Section ArenaMore.
Context {B : Type} `{Allocator B}.

Lemma arena_realloc_fit (a : Alloc.ArenaAllocator B) (old_ptr size : Z) :
  let new_count := wrap_size (Alloc.arena_count a + size) in
  new_count <= Alloc.arena_length a ->
  Alloc.arena_allocator_realloc a old_ptr size =
  (ptr_index (Alloc.arena_memory a) (Alloc.arena_count a),
   Alloc.mkArena (Alloc.backing_allocator a) (Alloc.arena_memory a) new_count
                 (Alloc.arena_length a)).
Proof.
  intros new_count Hfit. unfold Alloc.arena_allocator_realloc. fold new_count.
  replace (Alloc.arena_length a <? new_count) with false
    by (symmetry; apply Z.ltb_ge; lia).
  reflexivity.
Qed.

Lemma arena_alloc_bounds (a : Alloc.ArenaAllocator B) (size : Z) :
  let a' := snd (Alloc.arena_allocator_alloc a size) in
  0 <= Alloc.arena_count a' <= Alloc.arena_length a' /\
  Alloc.arena_length a <= Alloc.arena_length a'.
Proof.
  intros a'. subst a'.
  pose proof (wrap_size_range (Alloc.arena_count a + size)) as Hr.
  destruct (Z.lt_ge_cases (Alloc.arena_length a)
              (wrap_size (Alloc.arena_count a + size))) as [Hgrow|Hfit].
  - rewrite (arena_alloc_grow a size Hgrow). simpl. unfold grown_length. lia.
  - rewrite (arena_alloc_fit a size Hfit). simpl. lia.
Qed.

Lemma arena_realloc_bounds (a : Alloc.ArenaAllocator B) (old_ptr size : Z) :
  let a' := snd (Alloc.arena_allocator_realloc a old_ptr size) in
  0 <= Alloc.arena_count a' <= Alloc.arena_length a' /\
  Alloc.arena_length a <= Alloc.arena_length a'.
Proof.
  intros a'. subst a'.
  pose proof (wrap_size_range (Alloc.arena_count a + size)) as Hr.
  destruct (Z.lt_ge_cases (Alloc.arena_length a)
              (wrap_size (Alloc.arena_count a + size))) as [Hgrow|Hfit].
  - rewrite (arena_realloc_grow a old_ptr size Hgrow). simpl. unfold grown_length. lia.
  - rewrite (arena_realloc_fit a old_ptr size Hfit). simpl. lia.
Qed.

Lemma arena_run_bounds ops : forall a : Alloc.ArenaAllocator B,
  0 <= Alloc.arena_count a <= Alloc.arena_length a ->
  0 <= Alloc.arena_count (trait_run ops a) <= Alloc.arena_length (trait_run ops a) /\
  Alloc.arena_length a <= Alloc.arena_length (trait_run ops a).
Proof.
  induction ops as [|op ops IH]; intros a Hc; [simpl; lia|].
  change (trait_run (op :: ops) a) with (trait_run ops (trait_step a op)).
  assert (Hstep : 0 <= Alloc.arena_count (trait_step a op)
                    <= Alloc.arena_length (trait_step a op) /\
                  Alloc.arena_length a <= Alloc.arena_length (trait_step a op)).
  { destruct op as [size|ptr|old_ptr size].
    - apply arena_alloc_bounds.
    - change (trait_step a (OpFree ptr)) with a. lia.
    - apply arena_realloc_bounds. }
  destruct Hstep as [Hc' Hl]. destruct (IH _ Hc') as [Hc'' Hl'].
  split; [done|lia].
Qed.

Lemma arena_u32_step_stuck (a : AllocU32.ArenaAllocator B) (op : TraitOp) :
  AllocU32.arena_length a = 0 ->
  AllocU32.arena_memory (trait_step a op) = AllocU32.arena_memory a /\
  AllocU32.arena_length (trait_step a op) = 0 /\
  AllocU32.backing_allocator (trait_step a op) = AllocU32.backing_allocator a.
Proof.
  intros Hl.
  assert (Hneg : forall z, (AllocU32.wrap32 z <? 0) = false).
  { intros z. apply Z.ltb_ge. unfold AllocU32.wrap32.
    pose proof (Z.mod_pos_bound z (2 ^ 32)). lia. }
  destruct op as [size|ptr|old_ptr size]; simpl.
  - unfold AllocU32.arena_allocator_alloc. rewrite Hl, Hneg. done.
  - done.
  - unfold AllocU32.arena_allocator_realloc. rewrite Hl, Hneg. done.
Qed.

Lemma arena_u32_run_stuck ops : forall a : AllocU32.ArenaAllocator B,
  AllocU32.arena_length a = 0 ->
  AllocU32.arena_memory (trait_run ops a) = AllocU32.arena_memory a /\
  AllocU32.arena_length (trait_run ops a) = 0 /\
  AllocU32.backing_allocator (trait_run ops a) = AllocU32.backing_allocator a.
Proof.
  induction ops as [|op ops IH]; intros a Hl; [done|].
  change (trait_run (op :: ops) a) with (trait_run ops (trait_step a op)).
  destruct (arena_u32_step_stuck a op Hl) as (Hm & Hl' & Hb).
  destruct (IH _ Hl') as (Hm' & Hl'' & Hb').
  rewrite Hm', Hb', Hm, Hb. done.
Qed.
End ArenaMore.

(** X8.  [bump_allocator_destroy] and [arena_allocator_destroy] leave
    [memory] null and [count] and [length] as they were; the arena hands
    its buffer to [free] of the backing allocator when it has one and makes
    no call when it has none; a second destroy changes nothing, so the
    buffer is released once. *)
Theorem allocator_destroy_once :
  (forall b : Alloc.BumpAllocator,
     Alloc.bump_allocator_destroy b
       = Alloc.mkBump NULL (Alloc.bump_count b) (Alloc.bump_length b) /\
     Alloc.bump_allocator_destroy (Alloc.bump_allocator_destroy b)
       = Alloc.bump_allocator_destroy b) /\
  (forall (B : Type) (HB : Allocator B) (a : Alloc.ArenaAllocator B),
     Alloc.arena_memory (Alloc.arena_allocator_destroy a) = NULL /\
     Alloc.arena_count (Alloc.arena_allocator_destroy a) = Alloc.arena_count a /\
     Alloc.arena_length (Alloc.arena_allocator_destroy a) = Alloc.arena_length a /\
     (Alloc.arena_memory a <> NULL ->
        Alloc.backing_allocator (Alloc.arena_allocator_destroy a)
        = free (Alloc.backing_allocator a) (Alloc.arena_memory a)) /\
     (Alloc.arena_memory a = NULL -> Alloc.arena_allocator_destroy a = a) /\
     Alloc.arena_allocator_destroy (Alloc.arena_allocator_destroy a)
       = Alloc.arena_allocator_destroy a).
Proof.
  split.
  - intros [memory count length]. unfold Alloc.bump_allocator_destroy. simpl.
    destruct (Z.eqb_spec memory NULL) as [->|Hne]; simpl; done.
  - intros B HB [backing memory count length].
    unfold Alloc.arena_allocator_destroy. simpl.
    destruct (Z.eqb_spec memory NULL) as [->|Hne]; simpl.
    + repeat split; done.
    + repeat split; done.
Qed.

Lemma allocator_destroy_once_witness :
  let a := Alloc.mkArena (mkRecorder 4096 []) 4096 60 100 in
  calls (Alloc.backing_allocator (Alloc.arena_allocator_destroy a)) = [CallFree 4096] /\
  Alloc.arena_allocator_destroy
    (Alloc.arena_allocator_create (mkRecorder 4096 []))
  = Alloc.arena_allocator_create (mkRecorder 4096 []).
Proof.
  destruct (proj2 allocator_destroy_once Recorder recorder_Allocator
              (Alloc.mkArena (mkRecorder 4096 []) 4096 60 100))
    as (_ & _ & _ & Hfree & _ & _).
  destruct (proj2 allocator_destroy_once Recorder recorder_Allocator
              (Alloc.arena_allocator_create (mkRecorder 4096 [])))
    as (_ & _ & _ & _ & Hnone & _).
  cbv zeta. split.
  - rewrite Hfree; [reflexivity|]. simpl. discriminate.
  - apply Hnone. reflexivity.
Defined.

(** X9.  An arena made by [arena_allocator_create] ([size_t] version),
    over any backing allocator and after any sequence of [alloc], [free]
    and [realloc] calls with whatever sizes, has [count] between 0 and
    [length]; every single [alloc] or [realloc], from any state, ends with
    [count] within [length] and never lowers [length];
    [arena_allocator_clear] sets [count] to 0 and keeps the rest. *)
Theorem arena_allocator_keeps_bounds :
  (forall (B : Type) (HB : Allocator B) (backing : B) (ops : list TraitOp),
     let a := trait_run ops (Alloc.arena_allocator_create backing) in
     0 <= Alloc.arena_count a <= Alloc.arena_length a) /\
  (forall (B : Type) (HB : Allocator B) (a : Alloc.ArenaAllocator B) (old_ptr size : Z),
     let a1 := snd (Alloc.arena_allocator_alloc a size) in
     let a2 := snd (Alloc.arena_allocator_realloc a old_ptr size) in
     (0 <= Alloc.arena_count a1 <= Alloc.arena_length a1 /\
      Alloc.arena_length a <= Alloc.arena_length a1) /\
     (0 <= Alloc.arena_count a2 <= Alloc.arena_length a2 /\
      Alloc.arena_length a <= Alloc.arena_length a2)) /\
  (forall (B : Type) (HB : Allocator B) (a : Alloc.ArenaAllocator B),
     Alloc.arena_allocator_clear a
     = Alloc.mkArena (Alloc.backing_allocator a) (Alloc.arena_memory a) 0
                     (Alloc.arena_length a)).
Proof.
  split; [|split].
  - intros B HB backing ops a. subst a.
    apply (arena_run_bounds ops (Alloc.arena_allocator_create backing)).
    simpl. lia.
  - intros B HB a old_ptr size a1 a2. split.
    + apply arena_alloc_bounds.
    + apply arena_realloc_bounds.
  - reflexivity.
Qed.

(** X10.  After [arena_allocator_clear], an allocation that fits the
    recorded [length] reuses the buffer: the backing allocator is not
    called, [memory] and [length] stay, the pointer returned is the start
    of the buffer and [count] becomes the size asked for. *)
Theorem arena_clear_then_alloc (B : Type) (HB : Allocator B)
  (a : Alloc.ArenaAllocator B) (size : Z) :
  0 <= size <= Alloc.arena_length a -> size < 2 ^ 64 ->
  Alloc.arena_allocator_alloc (Alloc.arena_allocator_clear a) size
  = (ptr_index (Alloc.arena_memory a) 0,
     Alloc.mkArena (Alloc.backing_allocator a) (Alloc.arena_memory a) size
                   (Alloc.arena_length a)).
Proof.
  intros Hsize Hfit.
  assert (Hnew : wrap_size (Alloc.arena_count (Alloc.arena_allocator_clear a) + size)
                 = size).
  { simpl. rewrite Z.add_0_l. apply wrap_size_small. lia. }
  rewrite (arena_alloc_fit (Alloc.arena_allocator_clear a) size); rewrite Hnew.
  - reflexivity.
  - simpl. lia.
Qed.

Lemma arena_clear_then_alloc_witness :
  Alloc.arena_allocator_alloc
    (Alloc.arena_allocator_clear (Alloc.mkArena (mkRecorder 4096 []) 8192 60 100)) 100
  = (8192, Alloc.mkArena (mkRecorder 4096 []) 8192 100 100).
Proof.
  apply (arena_clear_then_alloc Recorder recorder_Allocator
           (Alloc.mkArena (mkRecorder 4096 []) 8192 60 100) 100);
    simpl; lia.
Defined.

(** X11.  [arena_allocator_realloc] ([size_t] version) never looks at the
    old pointer: two calls that differ in it only agree.  It allocates at
    the end like [arena_allocator_alloc]: [count] and [length] after it are
    those after an [alloc] of the same size, and when the request fits the
    recorded [length] the two calls give the same pointer and the same
    arena. *)
Theorem arena_realloc_is_fresh_allocation (B : Type) (HB : Allocator B)
  (a : Alloc.ArenaAllocator B) (old_ptr old_ptr' size : Z) :
  Alloc.arena_allocator_realloc a old_ptr size
    = Alloc.arena_allocator_realloc a old_ptr' size /\
  Alloc.arena_count (snd (Alloc.arena_allocator_realloc a old_ptr size))
    = Alloc.arena_count (snd (Alloc.arena_allocator_alloc a size)) /\
  Alloc.arena_length (snd (Alloc.arena_allocator_realloc a old_ptr size))
    = Alloc.arena_length (snd (Alloc.arena_allocator_alloc a size)) /\
  (wrap_size (Alloc.arena_count a + size) <= Alloc.arena_length a ->
     Alloc.arena_allocator_realloc a old_ptr size = Alloc.arena_allocator_alloc a size).
Proof.
  split; [reflexivity|].
  destruct (Z.lt_ge_cases (Alloc.arena_length a)
              (wrap_size (Alloc.arena_count a + size))) as [Hgrow|Hfit].
  - rewrite (arena_realloc_grow a old_ptr size Hgrow), (arena_alloc_grow a size Hgrow).
    simpl. repeat split. lia.
  - rewrite (arena_realloc_fit a old_ptr size Hfit), (arena_alloc_fit a size Hfit).
    repeat split.
Qed.

Lemma arena_realloc_is_fresh_allocation_witness :
  let a := Alloc.mkArena (mkRecorder 4096 []) 8192 60 100 in
  Alloc.arena_allocator_realloc a 8192 40 = Alloc.arena_allocator_alloc a 40.
Proof.
  apply (arena_realloc_is_fresh_allocation Recorder recorder_Allocator
           (Alloc.mkArena (mkRecorder 4096 []) 8192 60 100) 8192 0 40).
  vm_compute. discriminate.
Defined.

(** X12.  When the arena ([size_t] version) grows and the backing
    allocator returns [NULL], the failure is not reported: [memory] becomes
    [NULL], [count] and [length] are updated as after a success, and the
    pointer returned is [count] bytes past [NULL], which is not [NULL]
    unless [count] was 0. *)
Theorem arena_backing_failure_unreported (B : Type) (HB : Allocator B)
  (a : Alloc.ArenaAllocator B) (size : Z) :
  let new_count := wrap_size (Alloc.arena_count a + size) in
  Alloc.arena_length a < new_count ->
  fst (alloc (Alloc.backing_allocator a) new_count) = NULL ->
  Alloc.arena_allocator_alloc a size
  = (ptr_index NULL (Alloc.arena_count a),
     Alloc.mkArena (snd (alloc (Alloc.backing_allocator a) new_count)) NULL
                   new_count (grown_length (Alloc.arena_length a) new_count)) /\
  (0 < Alloc.arena_count a < 2 ^ 64 ->
     fst (Alloc.arena_allocator_alloc a size) <> NULL).
Proof.
  intros new_count Hgrow Hnull.
  rewrite (arena_alloc_grow a size Hgrow). fold new_count. rewrite Hnull.
  split; [reflexivity|].
  intros Hcount. simpl. unfold ptr_index, NULL.
  rewrite Z.add_0_l, wrap_size_small by lia. lia.
Qed.

Lemma arena_backing_failure_unreported_witness :
  let a := Alloc.mkArena (Alloc.mkBump 4096 100 1024) 4096 100 100 in
  Alloc.arena_allocator_alloc a 2000
  = (100, Alloc.mkArena (Alloc.mkBump 4096 100 1024) NULL 2100 2100).
Proof.
  apply (arena_backing_failure_unreported Alloc.BumpAllocator Alloc.bump_Allocator
           (Alloc.mkArena (Alloc.mkBump 4096 100 1024) 4096 100 100) 2000).
  - vm_compute. reflexivity.
  - vm_compute. reflexivity.
Defined.

(** X13.  The two versions of [bump_allocator_alloc] agree on every
    allocator whose [length] fits a [uint32_t]: same pointer, same fields
    after the call, for every [count] and every size. *)
Theorem bump_versions_agree (memory count length size : Z) :
  length < 2 ^ 32 ->
  let r := Alloc.bump_allocator_alloc (Alloc.mkBump memory count length) size in
  let r32 := AllocU32.bump_allocator_alloc (AllocU32.mkBump memory count length) size in
  fst r = fst r32 /\
  Alloc.bump_memory (snd r) = AllocU32.bump_memory (snd r32) /\
  Alloc.bump_count (snd r) = AllocU32.bump_count (snd r32) /\
  Alloc.bump_length (snd r) = AllocU32.bump_length (snd r32).
Proof.
  intros Hlen r r32. subst r r32.
  unfold Alloc.bump_allocator_alloc, AllocU32.bump_allocator_alloc. simpl.
  pose proof (wrap_size_range (count + size)) as Hr.
  destruct (Z.ltb_spec (wrap_size (count + size)) length) as [Hlt|Hge]; simpl.
  - repeat split. unfold AllocU32.wrap32. symmetry. apply Z.mod_small. lia.
  - repeat split.
Qed.

Lemma bump_versions_agree_witness :
  fst (Alloc.bump_allocator_alloc (Alloc.mkBump 4096 300 1024) 200)
  = fst (AllocU32.bump_allocator_alloc (AllocU32.mkBump 4096 300 1024) 200) /\
  Alloc.bump_count (snd (Alloc.bump_allocator_alloc (Alloc.mkBump 4096 300 1024) 200))
  = AllocU32.bump_count
      (snd (AllocU32.bump_allocator_alloc (AllocU32.mkBump 4096 300 1024) 200)).
Proof.
  assert (Hlen : 1024 < 2 ^ 32) by lia.
  destruct (bump_versions_agree 4096 300 1024 200 Hlen) as (Hp & _ & Hc & _).
  split; [exact Hp | exact Hc].
Defined.

(** X14.  In the [uint32_t] version an arena made by
    [arena_allocator_create] never obtains a buffer: after any sequence of
    [alloc], [free] and [realloc] calls, with whatever sizes, [memory] is
    still [NULL], [length] is still 0 and the backing allocator has
    received no call. *)
Theorem arena_u32_never_obtains_memory :
  forall (B : Type) (HB : Allocator B) (backing : B) (ops : list TraitOp),
    let a := trait_run ops (AllocU32.arena_allocator_create backing) in
    AllocU32.arena_memory a = NULL /\
    AllocU32.arena_length a = 0 /\
    AllocU32.backing_allocator a = backing.
Proof.
  intros B HB backing ops a. subst a.
  apply (arena_u32_run_stuck ops (AllocU32.arena_allocator_create backing)).
  reflexivity.
Qed.

(** ** scan.c *)

Section ScanMore.
Import Scan.

Lemma sum_append_all addends : forall acc,
  sum (fold_left sum_append addends (mkSum (wrap32 acc)))
  = wrap32 (acc + total addends).
Proof.
  induction addends as [|x addends IH]; intros acc.
  - simpl. by rewrite Z.add_0_r.
  - cbn [fold_left total fold_right]. unfold sum_append at 2. cbn [sum].
    replace (wrap32 (wrap32 acc + x)) with (wrap32 (acc + x))
      by (unfold wrap32; by rewrite Zplus_mod_idemp_l).
    rewrite IH. f_equal. unfold total. lia.
Qed.

Lemma sum_all_eq addends : sum_all addends = mkSum (wrap32 (total addends)).
Proof.
  pose proof (sum_append_all addends 0) as Hsum.
  change (mkSum (wrap32 0)) with sum_create in Hsum.
  rewrite Z.add_0_l in Hsum. unfold sum_all.
  destruct (fold_left sum_append addends sum_create) as [s]. simpl in Hsum.
  by rewrite Hsum.
Qed.

Lemma total_permutation l1 l2 : Permutation l1 l2 -> total l1 = total l2.
Proof.
  induction 1 as [|x l1 l2 _ IH|x y l|l1 l2 l3 _ IH1 _ IH2];
    unfold total in *; simpl; lia.
Qed.

Lemma memcpy_lookup_ge s : forall (dest : gmap Z ascii) off n i,
  off + Z.of_nat n <= i -> memcpy dest off s n !! i = dest !! i.
Proof.
  induction s as [|c s IH]; intros dest off n i Hi; destruct n; simpl; try done.
  rewrite IH by lia. apply lookup_insert_ne. lia.
Qed.

(** The loop of [string_builder_return] touches only the cells from its
    first offset to the end of what it copies. *)
Lemma copy_strings_frame (strings : gmap Z string) n :
  forall index l off (final_string : gmap Z ascii) r,
  slots strings index n = Some l ->
  0 <= off -> off + strlen (concat_all l) < 2 ^ 32 ->
  copy_strings strings index n off final_string = Some r ->
  fst r = off + strlen (concat_all l) /\
  forall i, i < off \/ off + strlen (concat_all l) <= i ->
            snd r !! i = final_string !! i.
Proof.
  induction n as [|n IH]; intros index l off final_string r Hl H0 Hlen Hcopy.
  - simpl in Hl, Hcopy. inversion Hl; subst. inversion Hcopy; subst. simpl.
    change (strlen EmptyString) with 0. split; [lia|done].
  - simpl in Hl, Hcopy.
    destruct (strings !! index) as [s|]; [|done].
    destruct (slots strings (index + 1) n) as [l'|] eqn:Hn; [|done].
    inversion Hl; subst. simpl in Hlen |- *. rewrite strlen_append in Hlen |- *.
    pose proof (strlen_nonneg s). pose proof (strlen_nonneg (concat_all l')).
    rewrite (wrap32_id (strlen s)) in Hcopy by lia.
    rewrite (wrap32_id (off + strlen s)) in Hcopy by lia.
    destruct (IH (index + 1) l' (off + strlen s)
                (memcpy final_string off s (Z.to_nat (strlen s))) r Hn)
      as [Hend Hframe]; [lia|lia|exact Hcopy|].
    split; [lia|].
    intros i Hi. rewrite Hframe by lia.
    destruct Hi as [Hi|Hi].
    + apply memcpy_lookup_lt. lia.
    + apply memcpy_lookup_ge. unfold strlen in *. lia.
Qed.
End ScanMore.

(** X15.  After any appends, [Sum] holds the sum of the addends reduced to
    a [uint32_t]; [sum_return] writes it and leaves the [Sum] as it was;
    the order of the appends does not matter. *)
Theorem sum_is_total (addends : list Z) :
  Scan.sum (sum_all addends) = Scan.wrap32 (total addends) /\
  (forall result : Z,
     Scan.sum_return (sum_all addends) result
     = (Scan.wrap32 (total addends), sum_all addends)) /\
  (forall addends' : list Z,
     Permutation addends addends' -> sum_all addends' = sum_all addends).
Proof.
  split; [|split].
  - by rewrite sum_all_eq.
  - intros result. unfold Scan.sum_return. by rewrite sum_all_eq.
  - intros addends' Hperm. rewrite !sum_all_eq.
    by rewrite (total_permutation _ _ Hperm).
Qed.

Lemma sum_is_total_witness :
  sum_all [4294967295; 7; 3] = sum_all [3; 4294967295; 7].
Proof.
  apply (proj2 (proj2 (sum_is_total [3; 4294967295; 7]))).
  apply (Permutation_cons_append [4294967295; 7] 3).
Defined.

(** X16.  The capacity of a builder is a hard limit.  On a builder made by
    [string_builder_create] with a capacity [c] that fits a [uint32_t],
    the first [c] appends store their strings in the slots, in the order of
    the calls, and leave [length] at [c] and the block as it was; the
    append after them finds [count] equal to [length], asks [realloc] for
    [2 * c] bytes and stores into slot [c], outside that block. *)
Theorem string_builder_capacity_is_hard_limit (c : Z) (values : list string) :
  0 <= c < 2 ^ 32 ->
  (Z.of_nat (List.length values) <= c ->
     exists builder,
       Scan.append_all (Scan.string_builder_create c) values = Scan.Stored builder /\
       Scan.stored_strings builder = Some values /\
       Scan.builder_count builder = Z.of_nat (List.length values) /\
       Scan.builder_length builder = c /\
       Scan.builder_size builder = Scan.sizeof_ptr * c) /\
  (Z.of_nat (List.length values) = c ->
     forall (value : string) (more : list string),
     exists builder,
       Scan.append_all (Scan.string_builder_create c) (values ++ value :: more)
         = Scan.OutOfBlock builder /\
       Scan.builder_count builder = c /\
       Scan.builder_length builder = Scan.wrap32 (c * 2) /\
       Scan.builder_size builder = Scan.wrap32 (c * 2) /\
       Scan.slot_in_block (Scan.builder_size builder) (Scan.builder_count builder)
         = false).
Proof.
  intros Hc.
  assert (Hfill : Z.of_nat (List.length values) <= c ->
    exists builder,
      Scan.append_all (Scan.string_builder_create c) values = Scan.Stored builder /\
      Scan.stored_strings builder = Some values /\
      Scan.builder_count builder = Z.of_nat (List.length values) /\
      Scan.builder_length builder = c /\
      Scan.builder_size builder = Scan.sizeof_ptr * c).
  { intros Hn.
    destruct (append_all_within_capacity values (Scan.string_builder_create c) [])
      as (builder & Hall & Hstored & Hcount & Hlength & Hsize);
      try (simpl; lia); [done|].
    exists builder. simpl in *. repeat split; try done. }
  split; [exact Hfill|].
  intros Hn value more.
  destruct (Hfill ltac:(lia)) as (builder & Hall & Hstored & Hcount & Hlength & Hsize).
  assert (Hsplit : forall l1 l2 b,
    Scan.append_all (Scan.string_builder_create c) l1 = Scan.Stored b ->
    Scan.append_all (Scan.string_builder_create c) (l1 ++ l2) = Scan.append_all b l2).
  { clear. intros l1. generalize (Scan.string_builder_create c).
    induction l1 as [|v l1 IH]; intros b0 l2 b Hb; simpl in *.
    - by inversion Hb.
    - destruct (Scan.string_builder_append b0 v); [by apply IH|done]. }
  rewrite (Hsplit values (value :: more) builder Hall). cbn [Scan.append_all].
  rewrite string_builder_append_grows_out_of_block by lia.
  eexists. split; [reflexivity|]. simpl. rewrite Hlength.
  repeat split; [lia|]. rewrite Hcount, Hn. apply slot_in_block_doubled.
Qed.

Lemma string_builder_capacity_is_hard_limit_witness :
  (exists builder,
     Scan.append_all (Scan.string_builder_create 2) ["a"; "b"]%string
       = Scan.Stored builder /\
     Scan.stored_strings builder = Some ["a"; "b"]%string /\
     Scan.builder_count builder = 2 /\
     Scan.builder_length builder = 2 /\
     Scan.builder_size builder = 16) /\
  (exists builder,
     Scan.append_all (Scan.string_builder_create 2) ["a"; "b"; "c"; "d"; "e"]%string
       = Scan.OutOfBlock builder /\
     Scan.builder_count builder = 2 /\
     Scan.builder_length builder = 4 /\
     Scan.builder_size builder = 4 /\
     Scan.slot_in_block (Scan.builder_size builder) (Scan.builder_count builder)
       = false).
Proof.
  assert (Hc : 0 <= 2 < 2 ^ 32) by lia.
  destruct (string_builder_capacity_is_hard_limit 2 ["a"; "b"]%string Hc)
    as [Hfill Hover].
  split.
  - apply Hfill. simpl. lia.
  - apply (Hover ltac:(simpl; lia) "c"%string ["d"; "e"]%string).
Defined.

(** X17.  [string_builder_return] writes the cells of the caller's buffer
    from the first one to the terminator and no other: every cell past the
    terminator (and every cell before the buffer) keeps its content.  On a
    builder with no string it writes the terminator into the first cell
    and nothing else. *)
Theorem string_builder_return_frame :
  (forall (builder : Scan.StringBuilder) (l : list string) (final_string : gmap Z ascii),
     Scan.stored_strings builder = Some l ->
     Scan.strlen (Scan.concat_all l) < 2 ^ 32 ->
     exists final_string',
       Scan.string_builder_return builder final_string = Some (builder, final_string') /\
       forall i, i < 0 \/ Scan.strlen (Scan.concat_all l) < i ->
                 final_string' !! i = final_string !! i) /\
  (forall (builder : Scan.StringBuilder) (final_string : gmap Z ascii),
     Scan.builder_count builder = 0 ->
     Scan.string_builder_return builder final_string
     = Some (builder, <[0 := Scan.NUL]> final_string)).
Proof.
  split.
  - intros builder l final_string Hl Hlen.
    destruct (string_builder_return_stored builder l final_string Hl Hlen)
      as (final_string' & Hreturn & _).
    exists final_string'. split; [done|].
    unfold Scan.string_builder_return in Hreturn. unfold Scan.stored_strings in Hl.
    destruct (Scan.copy_strings _ _ _ _ _) as [[chr_offset final1]|] eqn:Hcopy;
      [|done].
    inversion Hreturn; subst. intros i Hi.
    destruct (copy_strings_frame (Scan.builder_strings builder) _ 0 l 0
                final_string (chr_offset, final1) Hl)
      as [Hend Hframe]; [lia|lia|exact Hcopy|].
    simpl in Hend, Hframe. pose proof (strlen_nonneg (Scan.concat_all l)).
    rewrite lookup_insert_ne by lia. apply Hframe. lia.
  - intros builder final_string Hcount.
    unfold Scan.string_builder_return. rewrite Hcount. reflexivity.
Qed.

Lemma string_builder_return_frame_witness :
  let builder := Scan.mkBuilder (<[1 := "c"%string]> (<[0 := "ab"%string]> ∅)) 16 2 2 in
  exists final_string',
    Scan.string_builder_return builder {[ 3 := "x"%char; 4 := "y"%char ]}
      = Some (builder, final_string') /\
    forall i, i < 0 \/ 3 < i ->
              final_string' !! i
              = ({[ 3 := "x"%char; 4 := "y"%char ]} : gmap Z ascii) !! i.
Proof.
  apply (proj1 string_builder_return_frame
           (Scan.mkBuilder (<[1 := "c"%string]> (<[0 := "ab"%string]> ∅)) 16 2 2)
           ["ab"; "c"]%string {[ 3 := "x"%char; 4 := "y"%char ]}).
  - vm_compute. reflexivity.
  - vm_compute. reflexivity.
Defined.

(** ** What an arena asks of its backing allocator *)

Lemma arena_step_calls (a : Alloc.ArenaAllocator Recorder) (op : TraitOp) :
  exists new_calls,
    calls (Alloc.backing_allocator (trait_step a op))
      = calls (Alloc.backing_allocator a) ++ new_calls /\
    (List.length new_calls <= 1)%nat /\
    forallb (fun c => negb (is_free_call c)) new_calls = true.
Proof.
  destruct op as [size|ptr|old_ptr size].
  - destruct (Z.lt_ge_cases (Alloc.arena_length a)
                (wrap_size (Alloc.arena_count a + size))) as [Hgrow|Hfit].
    + exists [CallAlloc (wrap_size (Alloc.arena_count a + size))].
      change (trait_step a (OpAlloc size))
        with (snd (Alloc.arena_allocator_alloc a size)).
      rewrite (arena_alloc_grow a size Hgrow). simpl. auto.
    + exists []. change (trait_step a (OpAlloc size))
        with (snd (Alloc.arena_allocator_alloc a size)).
      rewrite (arena_alloc_fit a size Hfit). simpl. rewrite app_nil_r. auto.
  - exists []. change (trait_step a (OpFree ptr)) with a.
    rewrite app_nil_r. simpl. auto.
  - destruct (Z.lt_ge_cases (Alloc.arena_length a)
                (wrap_size (Alloc.arena_count a + size))) as [Hgrow|Hfit].
    + eexists [CallRealloc _ _].
      change (trait_step a (OpRealloc old_ptr size))
        with (snd (Alloc.arena_allocator_realloc a old_ptr size)).
      rewrite (arena_realloc_grow a old_ptr size Hgrow). simpl. auto.
    + exists []. change (trait_step a (OpRealloc old_ptr size))
        with (snd (Alloc.arena_allocator_realloc a old_ptr size)).
      rewrite (arena_realloc_fit a old_ptr size Hfit). simpl.
      rewrite app_nil_r. auto.
Qed.

(** X18.  During any sequence of [alloc], [free] and [realloc] calls on an
    arena ([size_t] version) the backing allocator receives at most one
    call for each call on the arena, and never a [free]: a buffer that
    [arena_allocator_alloc] replaces when it grows is not released. *)
Theorem arena_never_frees_while_in_use (ops : list TraitOp) :
  forall a : Alloc.ArenaAllocator Recorder,
  exists new_calls,
    calls (Alloc.backing_allocator (trait_run ops a))
      = calls (Alloc.backing_allocator a) ++ new_calls /\
    (List.length new_calls <= List.length ops)%nat /\
    forallb (fun c => negb (is_free_call c)) new_calls = true.
Proof.
  induction ops as [|op ops IH]; intros a.
  - exists []. simpl. rewrite app_nil_r. auto.
  - change (trait_run (op :: ops) a) with (trait_run ops (trait_step a op)).
    destruct (arena_step_calls a op) as (c1 & Hc1 & Hn1 & Hf1).
    destruct (IH (trait_step a op)) as (c2 & Hc2 & Hn2 & Hf2).
    exists (c1 ++ c2). rewrite Hc2, Hc1, <- app_assoc. split; [done|]. split.
    + rewrite length_app. simpl. lia.
    + rewrite forallb_app, Hf1, Hf2. done.
Qed.

(** X19.  [string_builder_return] on a builder whose slots below [count]
    hold the strings [l], the concatenation of which is shorter than 2^32
    characters: the caller's buffer then holds, from its first cell, the
    concatenation of [l] in slot order followed by the terminator, and the
    builder is as it was, so a second call gives the same string.  An
    append that finds room below [length], made after such a call, shows
    at the end of what the next call writes. *)
Theorem string_builder_return_concat :
  (forall (builder : Scan.StringBuilder) (l : list string) (final_string : gmap Z ascii),
     Scan.stored_strings builder = Some l ->
     Scan.strlen (Scan.concat_all l) < 2 ^ 32 ->
     exists first second,
       Scan.string_builder_return builder final_string = Some (builder, first) /\
       Scan.string_builder_return builder first = Some (builder, second) /\
       Scan.read_chars first 0 (S (String.length (Scan.concat_all l)))
         = Some (Scan.concat_all l ++ String Scan.NUL EmptyString)%string /\
       Scan.read_chars second 0 (S (String.length (Scan.concat_all l)))
         = Some (Scan.concat_all l ++ String Scan.NUL EmptyString)%string) /\
  (forall (builder : Scan.StringBuilder) (l : list string) (value : string)
          (final_string : gmap Z ascii),
     Scan.stored_strings builder = Some l ->
     0 <= Scan.builder_count builder < Scan.builder_length builder ->
     Scan.sizeof_ptr * Scan.builder_length builder <= Scan.builder_size builder ->
     Scan.builder_length builder < 2 ^ 32 ->
     Scan.strlen (Scan.concat_all (l ++ [value])) < 2 ^ 32 ->
     exists builder' first second,
       Scan.string_builder_return builder final_string = Some (builder, first) /\
       Scan.string_builder_append builder value = Scan.Stored builder' /\
       Scan.string_builder_return builder' first = Some (builder', second) /\
       Scan.read_chars second 0 (S (String.length (Scan.concat_all (l ++ [value]))))
         = Some (Scan.concat_all (l ++ [value]) ++ String Scan.NUL EmptyString)%string).
Proof.
  split.
  - intros builder l final_string Hl Hlen.
    destruct (string_builder_return_stored builder l final_string Hl Hlen)
      as (first & Hfirst & Hread1).
    destruct (string_builder_return_stored builder l first Hl Hlen)
      as (second & Hsecond & Hread2).
    by exists first, second.
  - intros builder l value final_string.
    apply string_builder_append_then_return.
Qed.

Lemma string_builder_return_concat_witness :
  let builder := Scan.mkBuilder (<[0 := "ab"%string]> ∅) 16 1 2 in
  (exists first second,
     Scan.string_builder_return builder ∅ = Some (builder, first) /\
     Scan.string_builder_return builder first = Some (builder, second) /\
     Scan.read_chars first 0 3 = Some ("ab" ++ String Scan.NUL EmptyString)%string /\
     Scan.read_chars second 0 3 = Some ("ab" ++ String Scan.NUL EmptyString)%string) /\
  (exists builder' first second,
     Scan.string_builder_return builder ∅ = Some (builder, first) /\
     Scan.string_builder_append builder "c" = Scan.Stored builder' /\
     Scan.string_builder_return builder' first = Some (builder', second) /\
     Scan.read_chars second 0 4 = Some ("abc" ++ String Scan.NUL EmptyString)%string).
Proof.
  destruct string_builder_return_concat as [Hreturn Happend].
  split.
  - apply (Hreturn (Scan.mkBuilder (<[0 := "ab"%string]> ∅) 16 1 2) ["ab"%string] ∅).
    + vm_compute. reflexivity.
    + vm_compute. reflexivity.
  - apply (Happend (Scan.mkBuilder (<[0 := "ab"%string]> ∅) 16 1 2)
             ["ab"%string] "c"%string ∅).
    + vm_compute. reflexivity.
    + simpl. lia.
    + vm_compute. discriminate.
    + simpl. lia.
    + vm_compute. reflexivity.
Defined.
